(** * STM32 GPIO port model (hw/gpio/stm32_gpio.c)

    A shallow embedding of the QEMU STM32 GPIO peripheral: the register
    file, the pin resolution loop [stm32_gpio_update_state], the three
    control lines (reset, enable, external input) and the memory mapped
    read and write handlers.  Registers are [uint32_t] values kept as [Z]
    with the truncation written out; guest-error log lines and IRQ
    activity are collected in an output trace; a failed [assert] ends the
    run.  The [trace_stm32_gpio_*] calls do not touch the device and are
    left out. *)

From Stdlib Require Import ZArith List Bool Lia.
Import ListNotations.
Local Open Scope Z_scope.

(** ** Fixed-width arithmetic *)

Definition u8 (x : Z) : Z := x mod 2 ^ 8.
Definition u32 (x : Z) : Z := x mod 2 ^ 32.
Definition u64 (x : Z) : Z := x mod 2 ^ 64.

(** [~x] on a [uint32_t], resp. [uint64_t], operand. *)
Definition not32 (x : Z) : Z := u32 (Z.lnot x).
Definition not64 (x : Z) : Z := u64 (Z.lnot x).

(** ** Constants of include/hw/gpio/stm32_gpio.h and include/hw/arm/stm32.h *)

Definition STM32_GPIO_REG_MODER : Z := 0x000.
Definition STM32_GPIO_REG_OTYPER : Z := 0x004.
Definition STM32_GPIO_REG_OSPEEDR : Z := 0x008.
Definition STM32_GPIO_REG_PUPDR : Z := 0x00C.
Definition STM32_GPIO_REG_IDR : Z := 0x010.
Definition STM32_GPIO_REG_ODR : Z := 0x014.
Definition STM32_GPIO_REG_BSRR : Z := 0x018.
Definition STM32_GPIO_REG_LCKR : Z := 0x01C.
Definition STM32_GPIO_REG_AFRL : Z := 0x020.
Definition STM32_GPIO_REG_AFRH : Z := 0x024.
Definition STM32_GPIO_REG_BRR : Z := 0x028.

Definition STM32_GPIO_NPINS : Z := 16.

Definition STM32_GPIO_PORT_A : Z := 0.
Definition STM32_GPIO_PORT_B : Z := 1.

Definition STM32_GPIO_MODE_INPUT : Z := 0.
Definition STM32_GPIO_MODE_OUTPUT : Z := 1.
Definition STM32_GPIO_MODE_AF : Z := 2.
Definition STM32_GPIO_MODE_ANALOG : Z := 3.

Definition STM32_GPIO_PULL_NONE : Z := 0.
Definition STM32_GPIO_PULL_UP : Z := 1.
Definition STM32_GPIO_PULL_DOWN : Z := 2.

(** The anonymous family enum of stm32.h numbers its members from 0. *)
Definition STM32_F2 : Z := 0.
Definition STM32_F4 : Z := 1.
Definition STM32_H5 : Z := 2.
Definition STM32_F7 : Z := 3.
Definition STM32_H7 : Z := 4.

(** ** Device state *)

(** [struct STM32GPIOState] without the framework members (parent object,
    memory region, IRQ handles).  The C field [in] is spelled [in_]. *)
Record STM32GPIOState : Type := mkState {
  moder : Z;
  otyper : Z;
  ospeedr : Z;
  pupdr : Z;
  idr : Z;
  odr : Z;
  lckr : Z;
  aflr : Z;
  afhr : Z;
  reset : bool;
  enable : bool;
  in_ : Z;
  in_mask : Z;
  family : Z;
  port : Z;
  ngpio : Z
}.

Definition set_moder (v : Z) (s : STM32GPIOState) : STM32GPIOState :=
  mkState v (otyper s) (ospeedr s) (pupdr s) (idr s) (odr s) (lckr s)
          (aflr s) (afhr s) (reset s) (enable s) (in_ s) (in_mask s)
          (family s) (port s) (ngpio s).
Definition set_otyper (v : Z) (s : STM32GPIOState) : STM32GPIOState :=
  mkState (moder s) v (ospeedr s) (pupdr s) (idr s) (odr s) (lckr s)
          (aflr s) (afhr s) (reset s) (enable s) (in_ s) (in_mask s)
          (family s) (port s) (ngpio s).
Definition set_ospeedr (v : Z) (s : STM32GPIOState) : STM32GPIOState :=
  mkState (moder s) (otyper s) v (pupdr s) (idr s) (odr s) (lckr s)
          (aflr s) (afhr s) (reset s) (enable s) (in_ s) (in_mask s)
          (family s) (port s) (ngpio s).
Definition set_pupdr (v : Z) (s : STM32GPIOState) : STM32GPIOState :=
  mkState (moder s) (otyper s) (ospeedr s) v (idr s) (odr s) (lckr s)
          (aflr s) (afhr s) (reset s) (enable s) (in_ s) (in_mask s)
          (family s) (port s) (ngpio s).
Definition set_idr (v : Z) (s : STM32GPIOState) : STM32GPIOState :=
  mkState (moder s) (otyper s) (ospeedr s) (pupdr s) v (odr s) (lckr s)
          (aflr s) (afhr s) (reset s) (enable s) (in_ s) (in_mask s)
          (family s) (port s) (ngpio s).
Definition set_odr (v : Z) (s : STM32GPIOState) : STM32GPIOState :=
  mkState (moder s) (otyper s) (ospeedr s) (pupdr s) (idr s) v (lckr s)
          (aflr s) (afhr s) (reset s) (enable s) (in_ s) (in_mask s)
          (family s) (port s) (ngpio s).
Definition set_lckr (v : Z) (s : STM32GPIOState) : STM32GPIOState :=
  mkState (moder s) (otyper s) (ospeedr s) (pupdr s) (idr s) (odr s) v
          (aflr s) (afhr s) (reset s) (enable s) (in_ s) (in_mask s)
          (family s) (port s) (ngpio s).
Definition set_aflr (v : Z) (s : STM32GPIOState) : STM32GPIOState :=
  mkState (moder s) (otyper s) (ospeedr s) (pupdr s) (idr s) (odr s)
          (lckr s) v (afhr s) (reset s) (enable s) (in_ s) (in_mask s)
          (family s) (port s) (ngpio s).
Definition set_afhr (v : Z) (s : STM32GPIOState) : STM32GPIOState :=
  mkState (moder s) (otyper s) (ospeedr s) (pupdr s) (idr s) (odr s)
          (lckr s) (aflr s) v (reset s) (enable s) (in_ s) (in_mask s)
          (family s) (port s) (ngpio s).
Definition set_reset (b : bool) (s : STM32GPIOState) : STM32GPIOState :=
  mkState (moder s) (otyper s) (ospeedr s) (pupdr s) (idr s) (odr s)
          (lckr s) (aflr s) (afhr s) b (enable s) (in_ s) (in_mask s)
          (family s) (port s) (ngpio s).
Definition set_enable (b : bool) (s : STM32GPIOState) : STM32GPIOState :=
  mkState (moder s) (otyper s) (ospeedr s) (pupdr s) (idr s) (odr s)
          (lckr s) (aflr s) (afhr s) (reset s) b (in_ s) (in_mask s)
          (family s) (port s) (ngpio s).
Definition set_in (v : Z) (s : STM32GPIOState) : STM32GPIOState :=
  mkState (moder s) (otyper s) (ospeedr s) (pupdr s) (idr s) (odr s)
          (lckr s) (aflr s) (afhr s) (reset s) (enable s) v (in_mask s)
          (family s) (port s) (ngpio s).
Definition set_in_mask (v : Z) (s : STM32GPIOState) : STM32GPIOState :=
  mkState (moder s) (otyper s) (ospeedr s) (pupdr s) (idr s) (odr s)
          (lckr s) (aflr s) (afhr s) (reset s) (enable s) (in_ s) v
          (family s) (port s) (ngpio s).

(** ** Observable output *)

(** The [qemu_log_mask (LOG_GUEST_ERROR, ...)] lines of the file. *)
Inductive guest_error : Type :=
| ShortCircuited (pin : Z)
| ReadDisabled
| WriteDisabled
| BadReadOffset (offset : Z)
| BadWriteOffset (offset : Z).

Inductive event : Type :=
| LogGuestError (e : guest_error)
| SetInputIrq (pin : Z) (level : bool)   (* qemu_set_irq (s->input_irq[pin], level) *)
| PulseStateIrq.                         (* qemu_irq_pulse (s->state_irq) *)

(** ** A state, output and abort monad *)

Inductive outcome (A : Type) : Type :=
| Ret (a : A) (s : STM32GPIOState) (out : list event)
| AssertFailed.
Arguments Ret {A} a s out.
Arguments AssertFailed {A}.

Definition M (A : Type) : Type := STM32GPIOState -> outcome A.

Definition ret {A : Type} (a : A) : M A := fun s => Ret a s [].

Definition bind {A B : Type} (m : M A) (f : A -> M B) : M B :=
  fun s =>
    match m s with
    | Ret a s1 o1 =>
        match f a s1 with
        | Ret b s2 o2 => Ret b s2 (o1 ++ o2)
        | AssertFailed => AssertFailed
        end
    | AssertFailed => AssertFailed
    end.

Notation "x <- m ;; k" := (bind m (fun x => k))
  (at level 61, m at next level, right associativity).
Notation "m ;; k" := (bind m (fun _ => k))
  (at level 61, right associativity).

Definition get : M STM32GPIOState := fun s => Ret s s [].
Definition modify (f : STM32GPIOState -> STM32GPIOState) : M unit :=
  fun s => Ret tt (f s) [].
Definition emit (e : event) : M unit := fun s => Ret tt s [e].
Definition qemu_log_guest_error (e : guest_error) : M unit :=
  emit (LogGuestError e).
Definition when (b : bool) (m : M unit) : M unit := if b then m else ret tt.

(** Result of a helper that may trip an [assert]. *)
Definition lift {A : Type} (o : option A) : M A :=
  fun s => match o with Some a => Ret a s [] | None => AssertFailed end.
Definition assert (b : bool) : M unit :=
  fun s => if b then Ret tt s [] else AssertFailed.

(** ** Bit-field helpers *)

(** Modelled from the spec: [extract32] and [deposit32] are QEMU's bit-field
    helpers (qemu/bitops.h), which is not among the sources.  The spec
    packs [MODER] and [PUPDR] as 2 bits per pin and [IDR], [ODR] and the
    external-drive bitmaps as 1 bit per pin; the helpers read and replace
    the [length]-bit field at bit [start] of a 32-bit word, and assert
    that the field lies inside the word. *)
Definition extract32 (value start length : Z) : option Z :=
  if (0 <=? start) && (0 <? length) && (length <=? 32 - start)
  then Some (Z.land (Z.shiftr value start)
                    (Z.shiftr 0xFFFFFFFF (32 - length)))
  else None.

Definition deposit32 (value start length fieldval : Z) : option Z :=
  if (0 <=? start) && (0 <? length) && (length <=? 32 - start)
  then
    let mask := u32 (Z.shiftl (Z.shiftr 0xFFFFFFFF (32 - length)) start) in
    Some (Z.lor (Z.land value (not32 mask))
                (Z.land (u32 (Z.shiftl fieldval start)) mask))
  else None.

(** C's conversion of an integer to [bool]. *)
Definition to_bool (x : Z) : bool := negb (x =? 0).

(** ** stm32_gpio_update_state *)

(** One iteration of the loop over the pins. *)
Definition update_pin (i : Z) : M unit :=
  s <- get ;;
  prev <- lift (extract32 (idr s) i 1) ;;
  od <- lift (extract32 (odr s) i 1) ;;
  inp <- lift (extract32 (in_ s) i 1) ;;
  msk <- lift (extract32 (in_mask s) i 1) ;;
  mode0 <- lift (extract32 (moder s) (i * 2) 2) ;;
  pupd0 <- lift (extract32 (pupdr s) (i * 2) 2) ;;
  let prev_id := to_bool prev in
  let mode := u8 mode0 in
  let pupd := u8 pupd0 in
  (* Pin both driven externally and internally *)
  when ((mode =? STM32_GPIO_MODE_OUTPUT) && to_bool msk)
       (qemu_log_guest_error (ShortCircuited i)) ;;
  let new_id :=
    if to_bool msk then to_bool inp
    else if mode =? STM32_GPIO_MODE_OUTPUT then to_bool od
    else pupd =? STM32_GPIO_PULL_UP in
  (* Update IDR *)
  v <- lift (deposit32 (idr s) i 1 (Z.b2z new_id)) ;;
  modify (set_idr v) ;;
  (* If pin is in input mode and IDR has changed, trigger an IRQ *)
  when (negb (eqb new_id prev_id))
       (when (mode =? STM32_GPIO_MODE_INPUT) (emit (SetInputIrq i new_id))).

(** [for (i = first; i < first + n; i++) update_pin (i)]. *)
Fixpoint update_pins (n : nat) (first : Z) : M unit :=
  match n with
  | O => ret tt
  | S n' => update_pin first ;; update_pins n' (first + 1)
  end.

Definition stm32_gpio_update_state : M unit :=
  s <- get ;;
  update_pins (Z.to_nat (ngpio s)) 0 ;;
  (* Notify that GPIO has changed its state *)
  emit PulseStateIrq.

(** ** Reset and control lines *)

Definition stm32_gpio_reset : M unit :=
  (* By default, we set all the registers to 0 *)
  modify (set_moder 0) ;;
  modify (set_otyper 0) ;;
  modify (set_ospeedr 0) ;;
  modify (set_pupdr 0) ;;
  modify (set_odr 0) ;;
  modify (set_lckr 0) ;;
  modify (set_aflr 0) ;;
  modify (set_afhr 0) ;;
  (* Next, we check model particularities *)
  s <- get ;;
  when (family s =? STM32_F4)
       (if port s =? STM32_GPIO_PORT_A then
          modify (set_moder 0xA8000000) ;;
          modify (set_pupdr 0x64000000)
        else if port s =? STM32_GPIO_PORT_B then
          modify (set_moder 0x00000280) ;;
          modify (set_ospeedr 0x000000C0) ;;
          modify (set_pupdr 0x00000100)
        else ret tt) ;;
  stm32_gpio_update_state.

Definition stm32_gpio_irq_reset (line value : Z) : M unit :=
  s <- get ;;
  let prev_reset := reset s in
  modify (set_reset (negb (value =? 0))) ;;
  s <- get ;;
  when (negb (eqb prev_reset (reset s)))
       (if reset s then stm32_gpio_reset else stm32_gpio_update_state).

Definition stm32_gpio_irq_enable (line value : Z) : M unit :=
  s <- get ;;
  let prev_enable := enable s in
  modify (set_enable (negb (value =? 0))) ;;
  s <- get ;;
  when (negb (eqb prev_enable (enable s))) stm32_gpio_update_state.

Definition stm32_gpio_irq_set (line value : Z) : M unit :=
  s <- get ;;
  assert ((0 <=? line) && (line <? ngpio s)) ;;
  v <- lift (deposit32 (in_mask s) line 1 (Z.b2z (0 <=? value))) ;;
  modify (set_in_mask v) ;;
  (* value < 0: connected to a load; value == 0: low; value > 0: high *)
  (if 0 <=? value then
     s <- get ;;
     w <- lift (deposit32 (in_ s) line 1 (Z.b2z (negb (value =? 0)))) ;;
     modify (set_in w)
   else ret tt) ;;
  stm32_gpio_update_state.

(** ** Memory mapped access *)

Definition stm32_gpio_read (offset size : Z) : M Z :=
  s <- get ;;
  if negb (enable s) then
    qemu_log_guest_error ReadDisabled ;; ret 0
  else if offset =? STM32_GPIO_REG_MODER then ret (moder s)
  else if offset =? STM32_GPIO_REG_OTYPER then ret (otyper s)
  else if offset =? STM32_GPIO_REG_OSPEEDR then ret (ospeedr s)
  else if offset =? STM32_GPIO_REG_PUPDR then ret (pupdr s)
  else if offset =? STM32_GPIO_REG_IDR then ret (idr s)
  else if offset =? STM32_GPIO_REG_ODR then ret (odr s)
  else if offset =? STM32_GPIO_REG_BSRR then ret 0 (* BSRR is write-only *)
  else if offset =? STM32_GPIO_REG_LCKR then ret (lckr s)
  else if offset =? STM32_GPIO_REG_AFRL then ret (aflr s)
  else if offset =? STM32_GPIO_REG_AFRH then ret (afhr s)
  else if offset =? STM32_GPIO_REG_BRR then
    if negb (family s =? STM32_F4) then ret 0 (* BRR is write-only *)
    else
      (* STM32F4xx SoCs do not have this register *)
      qemu_log_guest_error (BadReadOffset offset) ;; ret 0
  else
    qemu_log_guest_error (BadReadOffset offset) ;; ret 0.

(** The [switch] of [stm32_gpio_write]; [value] is a [uint64_t]. *)
Definition write_switch (offset value : Z) : M unit :=
  s <- get ;;
  if offset =? STM32_GPIO_REG_MODER then modify (set_moder (u32 value))
  else if offset =? STM32_GPIO_REG_OTYPER then modify (set_otyper (u32 value))
  else if offset =? STM32_GPIO_REG_OSPEEDR then
    modify (set_ospeedr (u32 value))
  else if offset =? STM32_GPIO_REG_PUPDR then modify (set_pupdr (u32 value))
  else if offset =? STM32_GPIO_REG_IDR then ret tt (* IDR is read-only *)
  else if offset =? STM32_GPIO_REG_ODR then modify (set_odr (u32 value))
  else if offset =? STM32_GPIO_REG_BSRR then
    modify (fun s => set_odr
      (u32 (Z.land (odr s) (not64 (Z.land (Z.shiftr value 16) 0xFFFF)))) s) ;;
    (* set bits have higher priority than reset bits *)
    modify (fun s => set_odr (u32 (Z.lor (odr s) (Z.land value 0xFFFF))) s)
  else if offset =? STM32_GPIO_REG_LCKR then modify (set_lckr (u32 value))
  else if offset =? STM32_GPIO_REG_AFRL then modify (set_aflr (u32 value))
  else if offset =? STM32_GPIO_REG_AFRH then modify (set_afhr (u32 value))
  else if offset =? STM32_GPIO_REG_BRR then
    if negb (family s =? STM32_F4) then
      modify (fun s => set_odr
        (u32 (Z.land (odr s) (not64 (Z.land value 0xFFFF)))) s)
    else
      (* STM32F4xx SoCs do not have this register *)
      qemu_log_guest_error (BadWriteOffset offset)
  else
    qemu_log_guest_error (BadWriteOffset offset).

Definition stm32_gpio_write (offset value size : Z) : M unit :=
  s <- get ;;
  if negb (enable s) then
    qemu_log_guest_error WriteDisabled
  else
    write_switch offset value ;;
    stm32_gpio_update_state.

(** The device as the object system creates it: zero-filled memory with
    the three properties set. *)
Definition stm32_gpio_init (fam prt n : Z) : STM32GPIOState :=
  mkState 0 0 0 0 0 0 0 0 0 false false 0 0 fam prt n.

(** * Specification vocabulary *)

(** ** Pins as the register map describes them *)

Inductive STM32GPIOMode : Type := Input | Output | AlternateFunction | Analog.
Inductive STM32GPIOPull : Type := PullNone | PullUp | PullDown | PullReserved.

(** [MODER] and [PUPDR] hold two bits per pin, the others one. *)
Definition pin_mode (s : STM32GPIOState) (i : Z) : STM32GPIOMode :=
  match Z.testbit (moder s) (2 * i + 1), Z.testbit (moder s) (2 * i) with
  | false, false => Input
  | false, true => Output
  | true, false => AlternateFunction
  | true, true => Analog
  end.

Definition pin_pull (s : STM32GPIOState) (i : Z) : STM32GPIOPull :=
  match Z.testbit (pupdr s) (2 * i + 1), Z.testbit (pupdr s) (2 * i) with
  | false, false => PullNone
  | false, true => PullUp
  | true, false => PullDown
  | true, true => PullReserved
  end.

Definition is_output (m : STM32GPIOMode) : bool :=
  match m with Output => true | _ => false end.
Definition is_input (m : STM32GPIOMode) : bool :=
  match m with Input => true | _ => false end.
Definition is_pull_up (p : STM32GPIOPull) : bool :=
  match p with PullUp => true | _ => false end.

Definition resolved_level (s : STM32GPIOState) (i : Z) : bool :=
  Z.testbit (idr s) i.
Definition requested_output (s : STM32GPIOState) (i : Z) : bool :=
  Z.testbit (odr s) i.
Definition external_drive_present (s : STM32GPIOState) (i : Z) : bool :=
  Z.testbit (in_mask s) i.
Definition external_drive_level (s : STM32GPIOState) (i : Z) : bool :=
  Z.testbit (in_ s) i.

(** The precedence order of the spec: external drive, then the output
    latch of a pin in Output mode, then the pull-up. *)
Definition arbitrate (s : STM32GPIOState) (i : Z) : bool :=
  if external_drive_present s i then external_drive_level s i
  else if is_output (pin_mode s i) then requested_output s i
  else is_pull_up (pin_pull s i).

Definition hazard (s : STM32GPIOState) (i : Z) : bool :=
  is_output (pin_mode s i) && external_drive_present s i.

(** ** Reading an outcome *)

Definition final_state {A : Type} (o : outcome A) : option STM32GPIOState :=
  match o with Ret _ s _ => Some s | AssertFailed => None end.
Definition output {A : Type} (o : outcome A) : list event :=
  match o with Ret _ _ out => out | AssertFailed => [] end.
Definition returned {A : Type} (o : outcome A) : option A :=
  match o with Ret a _ _ => Some a | AssertFailed => None end.

Definition is_pulse (e : event) : bool :=
  match e with PulseStateIrq => true | _ => false end.
Definition is_notification (e : event) : bool :=
  match e with LogGuestError _ => false | _ => true end.
Definition pulses (out : list event) : nat := length (filter is_pulse out).

(** * Derived notions used by the statements *)

(** The word [v] with bit [i] replaced by [b], as [deposit32] builds it for
    a field of length 1. *)
Definition with_bit (v i : Z) (b : bool) : Z :=
  Z.lor (Z.land v (not32 (u32 (Z.shiftl 1 i))))
        (Z.land (u32 (Z.shiftl (Z.b2z b) i)) (u32 (Z.shiftl 1 i))).

(** What one pin contributes to the output of a resolution step. *)
Definition pin_output (s : STM32GPIOState) (i : Z) : list event :=
  (if hazard s i then [LogGuestError (ShortCircuited i)] else []) ++
  (if negb (eqb (arbitrate s i) (resolved_level s i))
      && is_input (pin_mode s i)
   then [SetInputIrq i (arbitrate s i)] else []).

(** [IDR] and the output after [n] iterations starting at pin [first]. *)
Fixpoint idr_after (n : nat) (first : Z) (s : STM32GPIOState) : Z :=
  match n with
  | O => idr s
  | S n' =>
      idr_after n' (first + 1)
                (set_idr (with_bit (idr s) first (arbitrate s first)) s)
  end.

Fixpoint output_after (n : nat) (first : Z) (s : STM32GPIOState)
  : list event :=
  match n with
  | O => []
  | S n' =>
      pin_output s first ++
      output_after n' (first + 1)
                   (set_idr (with_bit (idr s) first (arbitrate s first)) s)
  end.

(** The state a resolution step leaves and what it emits before the pulse. *)
Definition resolve (s : STM32GPIOState) : STM32GPIOState :=
  set_idr (idr_after (Z.to_nat (ngpio s)) 0 s) s.
Definition resolve_output (s : STM32GPIOState) : list event :=
  output_after (Z.to_nat (ngpio s)) 0 s.

(** A state that a resolution step leaves as it is: [IDR] already holds
    the arbitration result of every pin. *)
Definition settled (s : STM32GPIOState) : Prop := resolve s = s.

(** Pin [i] owes a notification: its level is about to change and it is an
    input. *)
Definition notifies (s : STM32GPIOState) (i : Z) : bool :=
  negb (eqb (arbitrate s i) (resolved_level s i)) && is_input (pin_mode s i).

(** The eight configuration registers that a reset assigns. *)
Record config : Type := mkConfig {
  c_moder : Z;
  c_otyper : Z;
  c_ospeedr : Z;
  c_pupdr : Z;
  c_odr : Z;
  c_lckr : Z;
  c_aflr : Z;
  c_afhr : Z
}.

Definition config_of (s : STM32GPIOState) : config :=
  mkConfig (moder s) (otyper s) (ospeedr s) (pupdr s) (odr s) (lckr s)
           (aflr s) (afhr s).

Definition with_config (c : config) (s : STM32GPIOState) : STM32GPIOState :=
  mkState (c_moder c) (c_otyper c) (c_ospeedr c) (c_pupdr c) (idr s)
          (c_odr c) (c_lckr c) (c_aflr c) (c_afhr c) (reset s) (enable s)
          (in_ s) (in_mask s) (family s) (port s) (ngpio s).

(** The family/port reset defaults as a table, with the values
    [stm32_gpio_reset] assigns: every register is zero except on ports A
    and B of the F4 family. *)
Definition default_table (fam prt : Z) : config :=
  if fam =? STM32_F4 then
    if prt =? STM32_GPIO_PORT_A then
      mkConfig 0xA8000000 0 0 0x64000000 0 0 0 0
    else if prt =? STM32_GPIO_PORT_B then
      mkConfig 0x00000280 0 0x000000C0 0x00000100 0 0 0 0
    else mkConfig 0 0 0 0 0 0 0 0
  else mkConfig 0 0 0 0 0 0 0 0.

(** The external drive of pin [line] as [stm32_gpio_irq_set] records it:
    a negative [value] disconnects the pin and keeps the stored level. *)
Definition drive (line value : Z) (s : STM32GPIOState) : STM32GPIOState :=
  if 0 <=? value then
    set_in (with_bit (in_ s) line (negb (value =? 0)))
           (set_in_mask (with_bit (in_mask s) line true) s)
  else set_in_mask (with_bit (in_mask s) line false) s.

(** Everything outside the configuration registers. *)
Definition same_frame (s s1 : STM32GPIOState) : Prop :=
  idr s1 = idr s /\ reset s1 = reset s /\ enable s1 = enable s /\
  in_ s1 = in_ s /\ in_mask s1 = in_mask s /\ family s1 = family s /\
  port s1 = port s /\ ngpio s1 = ngpio s.

(** The entry points through which the rest of the machine acts on the
    device. *)
Inductive operation : Type :=
| DeviceReset                  (* the legacy reset hook, stm32_gpio_reset *)
| IrqReset (value : Z)
| IrqEnable (value : Z)
| IrqSet (line value : Z)
| Write (offset value : Z)
| Read (offset : Z).

Definition perform (op : operation) : M unit :=
  match op with
  | DeviceReset => stm32_gpio_reset
  | IrqReset value => stm32_gpio_irq_reset 0 value
  | IrqEnable value => stm32_gpio_irq_enable 0 value
  | IrqSet line value => stm32_gpio_irq_set line value
  | Write offset value => stm32_gpio_write offset value 4
  | Read offset => _ <- stm32_gpio_read offset 4 ;; ret tt
  end.

Fixpoint run (ops : list operation) : M unit :=
  match ops with
  | [] => ret tt
  | op :: rest => perform op ;; run rest
  end.

(** States reached from a freshly created device of at most 16 pins. *)
Inductive reachable : STM32GPIOState -> Prop :=
| reach_init (fam prt n : Z) :
    0 <= n <= 16 -> reachable (stm32_gpio_init fam prt n)
| reach_step (s s' : STM32GPIOState) (op : operation) (out : list event) :
    reachable s -> perform op s = Ret tt s' out -> reachable s'.

(** A 16-pin F2 port A, powered, with pin 3 an input pulled up and driven
    low from outside, pin 5 an output with its latch set, and pin 6 an
    output driven high from outside; [IDR] is settled. *)
Definition sample_port : STM32GPIOState :=
  mkState 0x1400 0 0 0x40 0x60 0x20 0 0 0 false true 0x40 0x48
          STM32_F2 STM32_GPIO_PORT_A 16.

(** The same configuration before its first resolution step. *)
Definition sample_stale : STM32GPIOState := set_idr 0x8 sample_port.

(** The state reached by powering a fresh F2 port A, making pin 0 an
    output and setting its latch. *)
Definition latched_port : STM32GPIOState :=
  mkState 1 0 0 0 1 1 0 0 0 false true 0 0 STM32_F2 STM32_GPIO_PORT_A 16.

(** The state reached by powering a fresh F2 port A and asserting its
    reset line. *)
Definition port_in_reset : STM32GPIOState :=
  mkState 0 0 0 0 0 0 0 0 0 true true 0 0 STM32_F2 STM32_GPIO_PORT_A 16.

(** The per-pin notifications of pin [k] in an output. *)
Definition irq_of (k : Z) (e : event) : bool :=
  match e with SetInputIrq p _ => p =? k | _ => false end.

(** Register accesses, as opposed to control lines. *)
Definition is_access (op : operation) : bool :=
  match op with Write _ _ | Read _ => true | _ => false end.

(** An outcome with [pre] emitted before it. *)
Definition prepend {A : Type} (pre : list event) (o : outcome A)
  : outcome A :=
  match o with
  | Ret a s out => Ret a s (pre ++ out)
  | AssertFailed => AssertFailed
  end.

(** The state a change of the reset line resolves from. *)
Definition reset_edge_state (value : Z) (s : STM32GPIOState)
  : STM32GPIOState :=
  if value =? 0 then set_reset false s
  else with_config (default_table (family s) (port s)) (set_reset true s).


(** A fresh 16-pin F2 port A: not powered, not in reset. *)
Definition fresh_port : STM32GPIOState :=
  stm32_gpio_init STM32_F2 STM32_GPIO_PORT_A 16.

(** ** The register map *)

(** The registers that are both readable and writable. *)
Definition rw_registers : list Z :=
  [STM32_GPIO_REG_MODER; STM32_GPIO_REG_OTYPER; STM32_GPIO_REG_OSPEEDR;
   STM32_GPIO_REG_PUPDR; STM32_GPIO_REG_ODR; STM32_GPIO_REG_LCKR;
   STM32_GPIO_REG_AFRL; STM32_GPIO_REG_AFRH].

(** The offsets the two [switch] statements name. *)
Definition mapped (offset : Z) : bool :=
  existsb (Z.eqb offset)
          (STM32_GPIO_REG_IDR :: STM32_GPIO_REG_BSRR :: STM32_GPIO_REG_BRR
             :: rw_registers).

(** The levels of the pins of a 16-pin port after a reset when nothing
    drives them from outside: the pins whose default pull is up. *)
Definition reset_idr (fam prt : Z) : Z :=
  if fam =? STM32_F4 then
    if prt =? STM32_GPIO_PORT_A then 0xA000
    else if prt =? STM32_GPIO_PORT_B then 0x0010
    else 0
  else 0.

(** The readable registers of the map with the field each one holds. *)
Definition register_file (s : STM32GPIOState) : list (Z * Z) :=
  [(STM32_GPIO_REG_MODER, moder s); (STM32_GPIO_REG_OTYPER, otyper s);
   (STM32_GPIO_REG_OSPEEDR, ospeedr s); (STM32_GPIO_REG_PUPDR, pupdr s);
   (STM32_GPIO_REG_IDR, idr s); (STM32_GPIO_REG_ODR, odr s);
   (STM32_GPIO_REG_LCKR, lckr s); (STM32_GPIO_REG_AFRL, aflr s);
   (STM32_GPIO_REG_AFRH, afhr s)].

(** * Bit-level facts *)

(** Boolean comparisons of [Z] decided through their propositions. *)
Ltac zbool :=
  rewrite ?andb_true_iff, ?andb_false_iff, ?Z.leb_le, ?Z.ltb_lt, ?Z.leb_gt,
    ?Z.ltb_ge, ?Z.eqb_eq, ?Z.eqb_neq;
  lia.

Lemma extract32_bit (v i : Z) :
  0 <= i <= 31 -> extract32 v i 1 = Some (Z.b2z (Z.testbit v i)).
Proof.
  intros Hi. unfold extract32.
  replace ((0 <=? i) && (0 <? 1) && (1 <=? 32 - i)) with true
    by (symmetry; zbool).
  f_equal. change (Z.shiftr 0xFFFFFFFF (32 - 1)) with (Z.ones 1).
  rewrite Z.land_ones by lia. rewrite Z.pow_1_r, <- Z.bit0_mod.
  now rewrite Z.shiftr_spec by lia.
Qed.

Lemma extract32_pair (v i : Z) :
  0 <= i <= 15 ->
  extract32 v (i * 2) 2 =
  Some (Z.b2z (Z.testbit v (2 * i)) + 2 * Z.b2z (Z.testbit v (2 * i + 1))).
Proof.
  intros Hi. unfold extract32.
  replace ((0 <=? i * 2) && (0 <? 2) && (2 <=? 32 - i * 2)) with true
    by (symmetry; zbool).
  f_equal. change (Z.shiftr 0xFFFFFFFF (32 - 2)) with (Z.ones 2).
  rewrite Z.land_ones by lia. change (2 ^ 2) with (2 * 2).
  rewrite Z.rem_mul_r by lia.
  rewrite <- Z.bit0_mod, Z.shiftr_spec by lia.
  replace (0 + i * 2) with (2 * i) by lia. f_equal. f_equal.
  replace (2 * i + 1) with (1 + i * 2) by lia.
  rewrite <- (Z.shiftr_spec v (i * 2) 1) by lia.
  rewrite Z.testbit_spec' by lia. now rewrite Z.pow_1_r.
Qed.

Lemma deposit32_bit (v i : Z) (b : bool) :
  0 <= i <= 31 -> deposit32 v i 1 (Z.b2z b) = Some (with_bit v i b).
Proof.
  intros Hi. unfold deposit32.
  replace ((0 <=? i) && (0 <? 1) && (1 <=? 32 - i)) with true
    by (symmetry; zbool).
  reflexivity.
Qed.

Lemma testbit_1 (j : Z) : Z.testbit 1 j = (j =? 0).
Proof. destruct j; reflexivity. Qed.

Lemma testbit_b2z (b : bool) (j : Z) : Z.testbit (Z.b2z b) j = b && (j =? 0).
Proof. destruct b; simpl; [apply testbit_1 | apply Z.testbit_0_l]. Qed.

Lemma testbit_u32 (x k : Z) :
  Z.testbit (u32 x) k = (k <? 32) && Z.testbit x k.
Proof. unfold u32. apply Z.testbit_mod_pow2. lia. Qed.

Lemma testbit_u64 (x k : Z) :
  Z.testbit (u64 x) k = (k <? 64) && Z.testbit x k.
Proof. unfold u64. apply Z.testbit_mod_pow2. lia. Qed.

Lemma u32_range (x : Z) : 0 <= u32 x < 2 ^ 32.
Proof. unfold u32. apply Z.mod_pos_bound. lia. Qed.

Lemma testbit_above_u32 (x k : Z) :
  0 <= x < 2 ^ 32 -> 32 <= k -> Z.testbit x k = false.
Proof.
  intros Hx Hk. rewrite <- (Z.mod_small x (2 ^ 32)) by lia.
  fold (u32 x). rewrite testbit_u32.
  replace (k <? 32) with false by (symmetry; zbool). reflexivity.
Qed.

Lemma testbit_with_bit (v i : Z) (b : bool) (k : Z) :
  0 <= i -> 0 <= k ->
  Z.testbit (with_bit v i b) k =
  if k =? i then b && (k <? 32) else (k <? 32) && Z.testbit v k.
Proof.
  intros Hi Hk. unfold with_bit, not32.
  rewrite Z.lor_spec, !Z.land_spec, !testbit_u32, Z.lnot_spec by lia.
  rewrite testbit_u32, !Z.shiftl_spec, testbit_1, testbit_b2z by lia.
  destruct (Z.eqb_spec k i) as [->|Hne].
  - rewrite Z.sub_diag. simpl.
    destruct (Z.testbit v i), b, (i <? 32); reflexivity.
  - replace (k - i =? 0) with false by (symmetry; zbool).
    destruct (Z.testbit v k), b, (k <? 32); reflexivity.
Qed.

Lemma with_bit_range (v i : Z) (b : bool) :
  0 <= i -> 0 <= with_bit v i b < 2 ^ 32.
Proof.
  intros Hi.
  replace (with_bit v i b) with (u32 (with_bit v i b)); [apply u32_range|].
  apply Z.bits_inj'. intros k Hk.
  rewrite testbit_u32, testbit_with_bit by lia.
  destruct (k =? i), (k <? 32), b; reflexivity.
Qed.

(** * The resolution step *)

Lemma update_pin_spec (s : STM32GPIOState) (i : Z) :
  0 <= i <= 15 ->
  update_pin i s =
  Ret tt (set_idr (with_bit (idr s) i (arbitrate s i)) s) (pin_output s i).
Proof.
  intros Hi. unfold update_pin, bind, get, lift.
  rewrite !extract32_bit, !extract32_pair by lia.
  cbv beta iota. rewrite deposit32_bit by lia.
  unfold pin_output, hazard, arbitrate, pin_mode, pin_pull, resolved_level,
    requested_output, external_drive_present, external_drive_level.
  destruct (Z.testbit (idr s) i), (Z.testbit (odr s) i),
    (Z.testbit (in_ s) i), (Z.testbit (in_mask s) i),
    (Z.testbit (moder s) (2 * i)), (Z.testbit (moder s) (2 * i + 1)),
    (Z.testbit (pupdr s) (2 * i)), (Z.testbit (pupdr s) (2 * i + 1));
    reflexivity.
Qed.

Lemma set_idr_same (s : STM32GPIOState) : set_idr (idr s) s = s.
Proof. destruct s; reflexivity. Qed.

Lemma update_pins_spec (n : nat) :
  forall (first : Z) (s : STM32GPIOState),
    0 <= first -> first + Z.of_nat n <= 16 ->
    update_pins n first s =
    Ret tt (set_idr (idr_after n first s) s) (output_after n first s).
Proof.
  induction n as [|n IH]; intros first s Hf Hn.
  - simpl. unfold ret. now rewrite set_idr_same.
  - cbn [update_pins idr_after output_after]. unfold bind.
    rewrite update_pin_spec by lia.
    rewrite IH by lia. reflexivity.
Qed.

Lemma update_state_spec (s : STM32GPIOState) :
  ngpio s <= 16 ->
  stm32_gpio_update_state s =
  Ret tt (resolve s) (resolve_output s ++ [PulseStateIrq]).
Proof.
  intros Hn. unfold stm32_gpio_update_state, bind, get, emit.
  cbv beta iota. rewrite update_pins_spec by lia.
  reflexivity.
Qed.

Lemma arbitrate_set_idr (v : Z) (s : STM32GPIOState) (k : Z) :
  arbitrate (set_idr v s) k = arbitrate s k.
Proof. reflexivity. Qed.

Lemma pin_mode_set_idr (v : Z) (s : STM32GPIOState) (k : Z) :
  pin_mode (set_idr v s) k = pin_mode s k.
Proof. reflexivity. Qed.

Lemma hazard_set_idr (v : Z) (s : STM32GPIOState) (k : Z) :
  hazard (set_idr v s) k = hazard s k.
Proof. reflexivity. Qed.

Lemma idr_after_bit (n : nat) :
  forall (first : Z) (s : STM32GPIOState) (k : Z),
    0 <= first -> 0 <= k < 32 ->
    Z.testbit (idr_after n first s) k =
    if (first <=? k) && (k <? first + Z.of_nat n) then arbitrate s k
    else Z.testbit (idr s) k.
Proof.
  induction n as [|n IH]; intros first s k Hf Hk.
  - simpl. replace ((first <=? k) && (k <? first + 0)) with false;
      [reflexivity|]. symmetry. zbool.
  - cbn [idr_after]. rewrite IH by lia.
    rewrite arbitrate_set_idr. cbn [idr set_idr].
    rewrite testbit_with_bit by lia.
    destruct (Z.eqb_spec k first) as [->|Hne].
    + replace (first <? 32) with true by (symmetry; zbool).
      rewrite andb_true_r.
      replace ((first + 1 <=? first) &&
               (first <? first + 1 + Z.of_nat n)) with false
        by (symmetry; zbool).
      replace ((first <=? first) &&
               (first <? first + Z.of_nat (S n))) with true
        by (symmetry; zbool).
      reflexivity.
    + replace (k <? 32) with true by (symmetry; zbool).
      rewrite andb_true_l.
      replace ((first + 1 <=? k) && (k <? first + 1 + Z.of_nat n))
        with ((first <=? k) && (k <? first + Z.of_nat (S n)));
        [reflexivity|].
      apply eq_true_iff_eq. zbool.
Qed.

Lemma idr_after_range (n : nat) :
  forall (first : Z) (s : STM32GPIOState),
    0 <= first -> 0 <= idr s < 2 ^ 32 ->
    0 <= idr_after n first s < 2 ^ 32.
Proof.
  induction n as [|n IH]; intros first s Hf Hr; [exact Hr|].
  cbn [idr_after]. apply IH; [lia|]. cbn [idr set_idr].
  now apply with_bit_range.
Qed.

(** ** What a resolution step emits *)

Lemma in_pin_output_irq (s : STM32GPIOState) (i k : Z) (b : bool) :
  In (SetInputIrq k b) (pin_output s i) <->
  k = i /\ b = arbitrate s i /\ notifies s i = true.
Proof.
  unfold pin_output. fold (notifies s i). rewrite in_app_iff. split.
  - intros [H|H].
    + destruct (hazard s i); simpl in H; [destruct H as [H|[]]|destruct H].
      discriminate H.
    + destruct (notifies s i); simpl in H; [|destruct H].
      destruct H as [H|[]]. injection H as <- <-. auto.
  - intros (-> & -> & Hn). right. rewrite Hn. now left.
Qed.

Lemma in_pin_output_hazard (s : STM32GPIOState) (i k : Z) :
  In (LogGuestError (ShortCircuited k)) (pin_output s i) <->
  k = i /\ hazard s i = true.
Proof.
  unfold pin_output. fold (notifies s i). rewrite in_app_iff. split.
  - intros [H|H].
    + destruct (hazard s i); simpl in H; [|destruct H].
      destruct H as [H|[]]. injection H as <-. auto.
    + destruct (notifies s i); simpl in H; [destruct H as [H|[]]|destruct H].
      discriminate H.
  - intros (-> & Hh). left. rewrite Hh. now left.
Qed.

Lemma pin_output_no_pulse (s : STM32GPIOState) (i : Z) :
  filter is_pulse (pin_output s i) = [].
Proof.
  unfold pin_output. destruct (hazard s i), (_ && _); reflexivity.
Qed.

Lemma resolved_level_step (s : STM32GPIOState) (first k : Z) (b : bool) :
  0 <= first -> 0 <= k < 32 -> k <> first ->
  resolved_level (set_idr (with_bit (idr s) first b) s) k =
  resolved_level s k.
Proof.
  intros Hf Hk Hne. unfold resolved_level. cbn [idr set_idr].
  rewrite testbit_with_bit by lia.
  replace (k =? first) with false by (symmetry; zbool).
  replace (k <? 32) with true by (symmetry; zbool). reflexivity.
Qed.

Lemma notifies_step (s : STM32GPIOState) (first k : Z) (b : bool) :
  0 <= first -> 0 <= k < 32 -> k <> first ->
  notifies (set_idr (with_bit (idr s) first b) s) k = notifies s k.
Proof.
  intros Hf Hk Hne. unfold notifies.
  rewrite resolved_level_step by assumption. reflexivity.
Qed.

Lemma in_output_after_irq (n : nat) :
  forall (first : Z) (s : STM32GPIOState) (k : Z) (b : bool),
    0 <= first -> first + Z.of_nat n <= 32 ->
    In (SetInputIrq k b) (output_after n first s) <->
    first <= k < first + Z.of_nat n /\ b = arbitrate s k /\
    notifies s k = true.
Proof.
  induction n as [|n IH]; intros first s k b Hf Hn.
  - simpl. split; [intros []|lia].
  - cbn [output_after]. rewrite in_app_iff, in_pin_output_irq, IH by lia.
    rewrite arbitrate_set_idr. split.
    + intros [(-> & -> & Hc)|(Hk & -> & Hc)].
      * repeat split; try assumption; lia.
      * rewrite notifies_step in Hc by lia. repeat split; try assumption; lia.
    + intros (Hk & -> & Hc).
      destruct (Z.eq_dec k first) as [->|Hne]; [left; auto|right].
      rewrite notifies_step by lia. repeat split; try assumption; lia.
Qed.

Lemma in_output_after_hazard (n : nat) :
  forall (first : Z) (s : STM32GPIOState) (k : Z),
    In (LogGuestError (ShortCircuited k)) (output_after n first s) <->
    first <= k < first + Z.of_nat n /\ hazard s k = true.
Proof.
  induction n as [|n IH]; intros first s k.
  - simpl. split; [intros []|lia].
  - cbn [output_after]. rewrite in_app_iff, in_pin_output_hazard, IH.
    rewrite hazard_set_idr. split.
    + intros [(-> & Hh)|(Hk & Hh)]; split; try assumption; lia.
    + intros (Hk & Hh).
      destruct (Z.eq_dec k first) as [->|Hne]; [left; auto|right].
      split; [lia|assumption].
Qed.

Lemma output_after_no_pulse (n : nat) :
  forall (first : Z) (s : STM32GPIOState),
    filter is_pulse (output_after n first s) = [].
Proof.
  induction n as [|n IH]; intros first s; [reflexivity|].
  cbn [output_after]. now rewrite filter_app, pin_output_no_pulse, IH.
Qed.

Lemma pulses_resolve_output (s : STM32GPIOState) (pre : list event) :
  filter is_pulse pre = [] ->
  pulses (pre ++ resolve_output s ++ [PulseStateIrq]) = 1%nat.
Proof.
  intros Hpre. unfold pulses, resolve_output.
  now rewrite !filter_app, Hpre, output_after_no_pulse.
Qed.

(** ** Bits of [IDR] after a resolution step *)

Lemma resolve_level (s : STM32GPIOState) (k : Z) :
  ngpio s <= 16 -> 0 <= k < ngpio s ->
  resolved_level (resolve s) k = arbitrate s k.
Proof.
  intros Hn Hk. unfold resolved_level, resolve. cbn [idr set_idr].
  rewrite idr_after_bit by lia.
  replace ((0 <=? k) && (k <? 0 + Z.of_nat (Z.to_nat (ngpio s)))) with true
    by (symmetry; zbool).
  reflexivity.
Qed.

Lemma idr_after_range_pos (n : nat) (first : Z) (s : STM32GPIOState) :
  0 <= first -> n <> O -> 0 <= idr_after n first s < 2 ^ 32.
Proof.
  intros Hf Hn. destruct n as [|n]; [congruence|].
  cbn [idr_after]. apply idr_after_range; [lia|]. cbn [idr set_idr].
  now apply with_bit_range.
Qed.

Lemma resolve_fixed (s : STM32GPIOState) :
  ngpio s <= 16 -> 0 <= idr s < 2 ^ 32 ->
  (forall k, 0 <= k < ngpio s -> resolved_level s k = arbitrate s k) ->
  resolve s = s.
Proof.
  intros Hn Hr Hs. rewrite <- (set_idr_same s) at 2.
  unfold resolve. f_equal.
  pose proof (idr_after_range (Z.to_nat (ngpio s)) 0 s ltac:(lia) Hr) as Hr'.
  apply Z.bits_inj'. intros k Hk.
  destruct (Z.ltb_spec k 32) as [Hlt|Hge].
  - rewrite idr_after_bit by lia.
    destruct ((0 <=? k) && (k <? 0 + Z.of_nat (Z.to_nat (ngpio s)))) eqn:E;
      [|reflexivity].
    symmetry. apply Hs. revert E. zbool.
  - now rewrite !testbit_above_u32 by lia.
Qed.

(** Resolution is idempotent. *)
Lemma settled_resolve (s : STM32GPIOState) :
  ngpio s <= 16 -> settled (resolve s).
Proof.
  intros Hn. unfold settled.
  destruct (Z.to_nat (ngpio s)) as [|n] eqn:E.
  - assert (H : resolve s = s)
      by (unfold resolve; rewrite E; apply set_idr_same).
    now rewrite !H.
  - apply resolve_fixed.
    + exact Hn.
    + unfold resolve. cbn [idr set_idr]. apply idr_after_range_pos; lia.
    + intros k Hk. change (ngpio (resolve s)) with (ngpio s) in Hk.
      rewrite resolve_level by lia. reflexivity.
Qed.

Lemma settled_level (s : STM32GPIOState) (k : Z) :
  ngpio s <= 16 -> settled s -> 0 <= k < ngpio s ->
  resolved_level s k = arbitrate s k.
Proof.
  intros Hn Hs Hk. unfold settled in Hs.
  rewrite <- Hs at 1. now apply resolve_level.
Qed.

(** * The operations in closed form *)

(** ** Configuration registers and the reset table *)

Lemma reset_spec (s : STM32GPIOState) :
  ngpio s <= 16 ->
  let s1 := with_config (default_table (family s) (port s)) s in
  stm32_gpio_reset s =
  Ret tt (resolve s1) (resolve_output s1 ++ [PulseStateIrq]).
Proof.
  intros Hn s1. subst s1.
  unfold stm32_gpio_reset, bind, modify, get, when, ret, default_table.
  cbn [family port set_moder set_otyper set_ospeedr set_pupdr set_odr
       set_lckr set_aflr set_afhr].
  destruct (family s =? STM32_F4);
    [destruct (port s =? STM32_GPIO_PORT_A);
     [|destruct (port s =? STM32_GPIO_PORT_B)]|];
    cbv beta iota; rewrite update_state_spec by exact Hn; reflexivity.
Qed.

Lemma irq_reset_rising (s : STM32GPIOState) (line value : Z) :
  ngpio s <= 16 -> reset s = false -> value <> 0 ->
  let s1 :=
    with_config (default_table (family s) (port s)) (set_reset true s) in
  stm32_gpio_irq_reset line value s =
  Ret tt (resolve s1) (resolve_output s1 ++ [PulseStateIrq]).
Proof.
  intros Hn Hr Hv s1. subst s1.
  unfold stm32_gpio_irq_reset, bind, get, modify, when.
  replace (value =? 0) with false by (symmetry; zbool).
  cbn [reset set_reset negb]. rewrite Hr. cbn [eqb negb].
  rewrite reset_spec by exact Hn. reflexivity.
Qed.

Lemma irq_reset_falling (s : STM32GPIOState) (line : Z) :
  ngpio s <= 16 -> reset s = true ->
  let s1 := set_reset false s in
  stm32_gpio_irq_reset line 0 s =
  Ret tt (resolve s1) (resolve_output s1 ++ [PulseStateIrq]).
Proof.
  intros Hn Hr s1. subst s1.
  unfold stm32_gpio_irq_reset, bind, get, modify, when.
  cbn [reset set_reset negb Z.eqb]. rewrite Hr. cbn [eqb negb].
  rewrite update_state_spec by exact Hn. reflexivity.
Qed.

Lemma irq_reset_level (s : STM32GPIOState) (line value : Z) :
  reset s = negb (value =? 0) ->
  stm32_gpio_irq_reset line value s = Ret tt s [].
Proof.
  intros Hr. unfold stm32_gpio_irq_reset, bind, get, modify, when, ret.
  cbn [reset set_reset]. rewrite <- Hr, eqb_reflx. cbn [negb app].
  f_equal. destruct s; reflexivity.
Qed.

Lemma irq_enable_edge (s : STM32GPIOState) (line value : Z) :
  ngpio s <= 16 -> enable s <> negb (value =? 0) ->
  let s1 := set_enable (negb (value =? 0)) s in
  stm32_gpio_irq_enable line value s =
  Ret tt (resolve s1) (resolve_output s1 ++ [PulseStateIrq]).
Proof.
  intros Hn He s1. subst s1.
  unfold stm32_gpio_irq_enable, bind, get, modify, when.
  cbn [enable set_enable].
  replace (eqb (enable s) (negb (value =? 0))) with false
    by (symmetry; apply eqb_false_iff; exact He).
  cbn [negb]. rewrite update_state_spec by exact Hn. reflexivity.
Qed.

Lemma irq_enable_level (s : STM32GPIOState) (line value : Z) :
  enable s = negb (value =? 0) ->
  stm32_gpio_irq_enable line value s = Ret tt s [].
Proof.
  intros He. unfold stm32_gpio_irq_enable, bind, get, modify, when, ret.
  cbn [enable set_enable]. rewrite <- He, eqb_reflx. cbn [negb app].
  f_equal. destruct s; reflexivity.
Qed.

Lemma irq_set_spec (s : STM32GPIOState) (line value : Z) :
  ngpio s <= 16 -> 0 <= line < ngpio s ->
  let s1 := drive line value s in
  stm32_gpio_irq_set line value s =
  Ret tt (resolve s1) (resolve_output s1 ++ [PulseStateIrq]).
Proof.
  intros Hn Hl s1. subst s1.
  unfold stm32_gpio_irq_set, drive, bind, get, modify, assert, lift, ret.
  replace ((0 <=? line) && (line <? ngpio s)) with true by (symmetry; zbool).
  rewrite deposit32_bit by lia.
  destruct (0 <=? value); cbn [Z.b2z in_ set_in_mask].
  - rewrite deposit32_bit by lia.
    rewrite update_state_spec by exact Hn. reflexivity.
  - rewrite update_state_spec by exact Hn. reflexivity.
Qed.

(** ** Register access *)

Lemma same_frame_refl (s : STM32GPIOState) : same_frame s s.
Proof. repeat split. Qed.

Lemma write_switch_frame (offset value : Z) (s : STM32GPIOState) :
  exists s1 pre,
    write_switch offset value s = Ret tt s1 pre /\
    same_frame s s1 /\ filter is_notification pre = [].
Proof.
  unfold write_switch, bind, get, modify, qemu_log_guest_error, emit, ret.
  repeat match goal with
         | |- context [if ?c then _ else _] => destruct c
         end;
    do 2 eexists; (split; [reflexivity|]); split;
    solve [repeat split | reflexivity].
Qed.

Lemma write_disabled (offset value size : Z) (s : STM32GPIOState) :
  enable s = false ->
  stm32_gpio_write offset value size s =
  Ret tt s [LogGuestError WriteDisabled].
Proof.
  intros He. unfold stm32_gpio_write, bind, get. now rewrite He.
Qed.

Lemma write_enabled (offset value size : Z) (s s1 : STM32GPIOState)
      (pre : list event) :
  enable s = true -> ngpio s <= 16 ->
  write_switch offset value s = Ret tt s1 pre ->
  ngpio s1 = ngpio s ->
  stm32_gpio_write offset value size s =
  Ret tt (resolve s1) (pre ++ resolve_output s1 ++ [PulseStateIrq]).
Proof.
  intros He Hn Hw Hn1. unfold stm32_gpio_write, bind, get.
  rewrite He. cbn [negb]. unfold bind. rewrite Hw.
  rewrite update_state_spec by lia. reflexivity.
Qed.

Lemma read_disabled (offset size : Z) (s : STM32GPIOState) :
  enable s = false ->
  stm32_gpio_read offset size s = Ret 0 s [LogGuestError ReadDisabled].
Proof.
  intros He. unfold stm32_gpio_read, bind, get. now rewrite He.
Qed.

(** A read never changes the device. *)
Lemma read_pure (offset size : Z) (s : STM32GPIOState) :
  exists r out, stm32_gpio_read offset size s = Ret r s out.
Proof.
  unfold stm32_gpio_read, bind, get, qemu_log_guest_error, emit, ret.
  repeat match goal with
         | |- context [if ?c then _ else _] => destruct c
         end;
    do 2 eexists; reflexivity.
Qed.

(** * States the device can reach *)

Lemma init_settled (fam prt n : Z) :
  0 <= n <= 16 -> settled (stm32_gpio_init fam prt n).
Proof.
  intros Hn. apply resolve_fixed; cbn [ngpio idr stm32_gpio_init];
    [lia|lia|].
  intros k Hk. unfold resolved_level, arbitrate, external_drive_present,
    pin_mode, pin_pull. cbn [idr in_mask moder pupdr stm32_gpio_init].
  now rewrite !Z.testbit_0_l.
Qed.

Lemma irq_set_bad_line (s : STM32GPIOState) (line value : Z) :
  ~ 0 <= line < ngpio s -> stm32_gpio_irq_set line value s = AssertFailed.
Proof.
  intros Hl. unfold stm32_gpio_irq_set, bind, get, assert.
  replace ((0 <=? line) && (line <? ngpio s)) with false by (symmetry; zbool).
  reflexivity.
Qed.

Lemma bind_Ret {A B : Type} (m : M A) (f : A -> M B)
      (s s1 : STM32GPIOState) (a : A) (o : list event) :
  m s = Ret a s1 o ->
  bind m f s =
  match f a s1 with
  | Ret b s2 o2 => Ret b s2 (o ++ o2)
  | AssertFailed => AssertFailed
  end.
Proof. intros H. unfold bind. now rewrite H. Qed.

Section Invariant.

Variables s s' : STM32GPIOState.
Variable out : list event.
Hypothesis Hn : ngpio s <= 16.
Hypothesis Hs : settled s.

Lemma resolve_invariant (s1 : STM32GPIOState) (o : list event) :
  ngpio s1 = ngpio s -> Ret tt (resolve s1) o = Ret tt s' out ->
  ngpio s' <= 16 /\ settled s'.
Proof.
  intros H1 H2. injection H2 as <- _. split.
  - change (ngpio (resolve s1)) with (ngpio s1). lia.
  - apply settled_resolve. lia.
Qed.

Lemma reset_invariant :
  stm32_gpio_reset s = Ret tt s' out ->
  ngpio s' <= 16 /\ settled s'.
Proof.
  intros Hp. rewrite reset_spec in Hp by exact Hn.
  eapply resolve_invariant; [|exact Hp]. reflexivity.
Qed.

Lemma irq_reset_invariant (line value : Z) :
  stm32_gpio_irq_reset line value s = Ret tt s' out ->
  ngpio s' <= 16 /\ settled s'.
Proof.
  intros Hp.
  destruct (bool_dec (reset s) (negb (value =? 0))) as [E|E].
  - rewrite irq_reset_level in Hp by exact E.
    injection Hp as <- _. split; assumption.
  - destruct (Z.eq_dec value 0) as [->|Hv].
    + rewrite irq_reset_falling in Hp
        by (try exact Hn; destruct (reset s); simpl in E; congruence).
      eapply resolve_invariant; [|exact Hp]. reflexivity.
    + rewrite irq_reset_rising in Hp
        by (try assumption; replace (value =? 0) with false in E
              by (symmetry; zbool); destruct (reset s);
            simpl in E; congruence).
      eapply resolve_invariant; [|exact Hp]. reflexivity.
Qed.

Lemma irq_enable_invariant (line value : Z) :
  stm32_gpio_irq_enable line value s = Ret tt s' out ->
  ngpio s' <= 16 /\ settled s'.
Proof.
  intros Hp.
  destruct (bool_dec (enable s) (negb (value =? 0))) as [E|E].
  - rewrite irq_enable_level in Hp by exact E.
    injection Hp as <- _. split; assumption.
  - rewrite irq_enable_edge in Hp by assumption.
    eapply resolve_invariant; [|exact Hp]. reflexivity.
Qed.

Lemma irq_set_invariant (line value : Z) :
  stm32_gpio_irq_set line value s = Ret tt s' out ->
  ngpio s' <= 16 /\ settled s'.
Proof.
  intros Hp.
  destruct (Z.le_gt_cases 0 line) as [H0|H0];
    [destruct (Z.lt_ge_cases line (ngpio s)) as [H1|H1]|].
  - rewrite irq_set_spec in Hp by (try assumption; lia).
    eapply resolve_invariant; [|exact Hp]. unfold drive.
    destruct (0 <=? value); reflexivity.
  - rewrite irq_set_bad_line in Hp by lia. discriminate Hp.
  - rewrite irq_set_bad_line in Hp by lia. discriminate Hp.
Qed.

Lemma write_invariant (offset value size : Z) :
  stm32_gpio_write offset value size s = Ret tt s' out ->
  ngpio s' <= 16 /\ settled s'.
Proof.
  intros Hp. destruct (enable s) eqn:He.
  - destruct (write_switch_frame offset value s)
      as (s1 & pre & Hw & Hf & _).
    assert (H1 : ngpio s1 = ngpio s) by apply Hf.
    rewrite (write_enabled _ _ _ _ _ _ He Hn Hw H1) in Hp.
    eapply resolve_invariant; [|exact Hp]. exact H1.
  - rewrite write_disabled in Hp by exact He.
    injection Hp as <- _. split; assumption.
Qed.

Lemma read_invariant (offset size : Z) :
  (_ <- stm32_gpio_read offset size ;; ret tt) s = Ret tt s' out ->
  ngpio s' <= 16 /\ settled s'.
Proof.
  intros Hp. destruct (read_pure offset size s) as (r & o & Hr).
  rewrite (bind_Ret _ _ _ _ _ _ Hr) in Hp. unfold ret in Hp.
  injection Hp as <- _. split; assumption.
Qed.

Lemma perform_invariant (op : operation) :
  perform op s = Ret tt s' out -> ngpio s' <= 16 /\ settled s'.
Proof.
  destruct op; cbn [perform].
  - apply reset_invariant.
  - apply irq_reset_invariant.
  - apply irq_enable_invariant.
  - apply irq_set_invariant.
  - apply write_invariant.
  - apply read_invariant.
Qed.

End Invariant.

(** Every reachable state has at most 16 pins and a settled [IDR]. *)
Lemma reachable_settled (s : STM32GPIOState) :
  reachable s -> ngpio s <= 16 /\ settled s.
Proof.
  induction 1 as [fam prt n Hn|s s' op out _ [IHn IHs] Hp].
  - split; [cbn; lia|now apply init_settled].
  - exact (perform_invariant s s' out IHn IHs op Hp).
Qed.

(** * The example devices *)

Lemma sample_port_settled : settled sample_port.
Proof. reflexivity. Qed.

Lemma latched_port_reached :
  final_state
    (run [IrqEnable 1; Write STM32_GPIO_REG_MODER 1;
          Write STM32_GPIO_REG_ODR 1]
         (stm32_gpio_init STM32_F2 STM32_GPIO_PORT_A 16))
  = Some latched_port.
Proof. vm_compute. reflexivity. Qed.

Lemma port_in_reset_reached :
  final_state
    (run [IrqEnable 1; IrqReset 1]
         (stm32_gpio_init STM32_F2 STM32_GPIO_PORT_A 16))
  = Some port_in_reset.
Proof. vm_compute. reflexivity. Qed.

(** A port declared with more than 16 pins trips the assertion of
    [extract32] on [MODER] at pin 16: the bound on [ngpio] in the
    statements below is needed. *)
Example seventeen_pins_abort :
  stm32_gpio_update_state (stm32_gpio_init STM32_F2 STM32_GPIO_PORT_A 17)
  = AssertFailed.
Proof. vm_compute. reflexivity. Qed.

(** Pin 3 of a powered fresh port is driven high, then made an output,
    then released: the input notification fires once, the hazard is
    logged while the pin is an output driven from outside, and releasing
    the pin lets it fall to its latch without a notification. *)
Example drive_then_output_then_release :
  output
    (run [IrqEnable 1; IrqSet 3 1; Write STM32_GPIO_REG_MODER 0x40;
          IrqSet 3 (-1)]
         (stm32_gpio_init STM32_F2 STM32_GPIO_PORT_A 16))
  = [PulseStateIrq;
     SetInputIrq 3 true; PulseStateIrq;
     LogGuestError (ShortCircuited 3); PulseStateIrq;
     PulseStateIrq].
Proof. vm_compute. reflexivity. Qed.

(** * The resolution step: precedence, notifications and hazards *)

(** C1: after a resolution step, bit [i] of [IDR] of every pin of the port
    is the external drive level if the pin is driven from outside,
    otherwise the [ODR] bit if the pin is in Output mode, otherwise whether
    its pull is PullUp (pull-down and no-pull read low); the step changes
    nothing but [IDR]. *)
Theorem resolve_precedence (s : STM32GPIOState) (i : Z) :
  ngpio s <= 16 -> 0 <= i < ngpio s ->
  exists s' out,
    stm32_gpio_update_state s = Ret tt s' out /\
    s' = set_idr (idr s') s /\
    resolved_level s' i =
    if external_drive_present s i then external_drive_level s i
    else match pin_mode s i with
         | Output => requested_output s i
         | Input | AlternateFunction | Analog =>
             match pin_pull s i with
             | PullUp => true
             | PullNone | PullDown | PullReserved => false
             end
         end.
Proof.
  intros Hn Hi. exists (resolve s), (resolve_output s ++ [PulseStateIrq]).
  split; [now apply update_state_spec|]. split; [reflexivity|].
  rewrite resolve_level by assumption. unfold arbitrate.
  destruct (external_drive_present s i); [reflexivity|].
  destruct (pin_mode s i), (pin_pull s i); reflexivity.
Qed.

Lemma resolve_precedence_witness :
  exists s' out,
    stm32_gpio_update_state sample_stale = Ret tt s' out /\
    s' = set_idr (idr s') sample_stale /\
    resolved_level s' 3 = false.
Proof.
  apply (resolve_precedence sample_stale 3); simpl; lia.
Defined.

Lemma pin_output_irq_of (s : STM32GPIOState) (i k : Z) :
  filter (irq_of k) (pin_output s i) =
  if (i =? k) && notifies s i then [SetInputIrq i (arbitrate s i)] else [].
Proof.
  unfold pin_output. fold (notifies s i). rewrite filter_app.
  replace (filter (irq_of k)
             (if hazard s i then [LogGuestError (ShortCircuited i)] else []))
    with (@nil event) by (destruct (hazard s i); reflexivity).
  destruct (notifies s i); cbn [filter irq_of app];
    [destruct (i =? k); reflexivity|now rewrite andb_false_r].
Qed.

Lemma output_after_irq_of (n : nat) :
  forall (first : Z) (s : STM32GPIOState) (k : Z),
    0 <= first -> first + Z.of_nat n <= 32 ->
    filter (irq_of k) (output_after n first s) =
    if (first <=? k) && (k <? first + Z.of_nat n) && notifies s k
    then [SetInputIrq k (arbitrate s k)] else [].
Proof.
  induction n as [|n IH]; intros first s k Hf Hn.
  - cbn [output_after filter].
    replace ((first <=? k) && (k <? first + Z.of_nat 0)) with false
      by (symmetry; zbool). reflexivity.
  - cbn [output_after]. rewrite filter_app, pin_output_irq_of, IH by lia.
    rewrite arbitrate_set_idr.
    destruct (Z.eqb_spec first k) as [->|Hne].
    + replace ((k + 1 <=? k) && (k <? k + 1 + Z.of_nat n)) with false
        by (symmetry; zbool).
      replace ((k <=? k) && (k <? k + Z.of_nat (S n))) with true
        by (symmetry; zbool).
      cbn [andb]. destruct (notifies s k); reflexivity.
    + cbn [andb app].
      destruct ((first <=? k) && (k <? first + Z.of_nat (S n))) eqn:E.
      * replace ((first + 1 <=? k) && (k <? first + 1 + Z.of_nat n))
          with true by (symmetry; revert E; zbool).
        rewrite notifies_step by (try lia; revert E; zbool). reflexivity.
      * replace ((first + 1 <=? k) && (k <? first + 1 + Z.of_nat n))
          with false by (symmetry; revert E; zbool).
        reflexivity.
Qed.

Lemma in_resolve_output_irq (s : STM32GPIOState) (k : Z) (b : bool) :
  ngpio s <= 16 ->
  In (SetInputIrq k b) (resolve_output s ++ [PulseStateIrq]) <->
  0 <= k < ngpio s /\ resolved_level (resolve s) k <> resolved_level s k /\
  pin_mode s k = Input /\ b = resolved_level (resolve s) k.
Proof.
  intros Hn. rewrite in_app_iff. unfold resolve_output.
  rewrite in_output_after_irq by lia. unfold notifies. split.
  - intros [(Hk & -> & Hc)|[H|[]]]; [|discriminate H].
    apply andb_true_iff in Hc. destruct Hc as [Hc Hm].
    rewrite resolve_level by lia. repeat split; try lia.
    + apply negb_true_iff, eqb_false_iff in Hc. exact Hc.
    + destruct (pin_mode s k); try discriminate Hm. reflexivity.
  - intros (Hk & Hc & Hm & ->). left.
    rewrite resolve_level in * by lia. repeat split; try lia.
    rewrite Hm. cbn [is_input]. rewrite andb_true_r.
    apply negb_true_iff, eqb_false_iff. exact Hc.
Qed.

Lemma resolve_output_irq_once (s : STM32GPIOState) (k : Z) :
  ngpio s <= 16 ->
  (length (filter (irq_of k) (resolve_output s ++ [PulseStateIrq])) <= 1)%nat.
Proof.
  intros Hn. rewrite filter_app. unfold resolve_output.
  rewrite output_after_irq_of by lia. cbn [filter irq_of app].
  destruct (_ && _); cbn; lia.
Qed.

(** C5: a resolution step notifies pin [k] with level [b] exactly when [k]
    is a pin of the port whose level in [IDR] changed, the pin is in
    Input mode and [b] is the new level; a pin in another mode is never
    notified, and no pin is notified twice. *)
Theorem edge_notification (s : STM32GPIOState) (k : Z) (b : bool) :
  ngpio s <= 16 ->
  exists s' out,
    stm32_gpio_update_state s = Ret tt s' out /\
    (In (SetInputIrq k b) out <->
     0 <= k < ngpio s /\ resolved_level s' k <> resolved_level s k /\
     pin_mode s k = Input /\ b = resolved_level s' k) /\
    (length (filter (irq_of k) out) <= 1)%nat.
Proof.
  intros Hn. exists (resolve s), (resolve_output s ++ [PulseStateIrq]).
  split; [now apply update_state_spec|]. split.
  - now apply in_resolve_output_irq.
  - now apply resolve_output_irq_once.
Qed.

Lemma edge_notification_witness :
  exists s' out,
    stm32_gpio_update_state sample_stale = Ret tt s' out /\
    (In (SetInputIrq 3 false) out <->
     0 <= 3 < ngpio sample_stale /\
     resolved_level s' 3 <> resolved_level sample_stale 3 /\
     pin_mode sample_stale 3 = Input /\ false = resolved_level s' 3) /\
    (length (filter (irq_of 3) out) <= 1)%nat.
Proof.
  apply (edge_notification sample_stale 3 false). simpl. lia.
Defined.

(** C9: a resolution step logs the short-circuit hazard of pin [k] exactly
    when [k] is a pin of the port in Output mode that is driven from
    outside; the step still returns, and for such a pin [IDR] takes the
    external level. *)
Theorem drive_hazard (s : STM32GPIOState) (k : Z) :
  ngpio s <= 16 ->
  exists s' out,
    stm32_gpio_update_state s = Ret tt s' out /\
    (In (LogGuestError (ShortCircuited k)) out <->
     0 <= k < ngpio s /\ pin_mode s k = Output /\
     external_drive_present s k = true) /\
    (In (LogGuestError (ShortCircuited k)) out ->
     resolved_level s' k = external_drive_level s k).
Proof.
  intros Hn. exists (resolve s), (resolve_output s ++ [PulseStateIrq]).
  split; [now apply update_state_spec|].
  assert (Hiff : In (LogGuestError (ShortCircuited k))
                    (resolve_output s ++ [PulseStateIrq]) <->
                 0 <= k < ngpio s /\ pin_mode s k = Output /\
                 external_drive_present s k = true).
  { rewrite in_app_iff. unfold resolve_output.
    rewrite in_output_after_hazard. unfold hazard. split.
    - intros [(Hk & Hh)|[H|[]]]; [|discriminate H].
      apply andb_true_iff in Hh. destruct Hh as [Hm Hp].
      repeat split; try lia; [|exact Hp].
      destruct (pin_mode s k); try discriminate Hm. reflexivity.
    - intros (Hk & Hm & Hp). left. rewrite Hm, Hp. split; [lia|reflexivity]. }
  split; [exact Hiff|].
  intros H. apply Hiff in H. destruct H as (Hk & _ & Hp).
  rewrite resolve_level by lia. unfold arbitrate. now rewrite Hp.
Qed.

Lemma drive_hazard_witness :
  exists s' out,
    stm32_gpio_update_state sample_stale = Ret tt s' out /\
    (In (LogGuestError (ShortCircuited 6)) out <->
     0 <= 6 < ngpio sample_stale /\ pin_mode sample_stale 6 = Output /\
     external_drive_present sample_stale 6 = true) /\
    (In (LogGuestError (ShortCircuited 6)) out ->
     resolved_level s' 6 = external_drive_level sample_stale 6).
Proof.
  apply (drive_hazard sample_stale 6). simpl. lia.
Defined.

(** * Resolution does not look at the lifecycle flags *)

Section Flags.

Variable f : STM32GPIOState -> STM32GPIOState.
Hypothesis f_idr : forall v s, f (set_idr v s) = set_idr v (f s).
Hypothesis f_arbitrate : forall s i, arbitrate (f s) i = arbitrate s i.
Hypothesis f_output : forall s i, pin_output (f s) i = pin_output s i.
Hypothesis f_keeps_idr : forall s, idr (f s) = idr s.
Hypothesis f_keeps_ngpio : forall s, ngpio (f s) = ngpio s.

Lemma idr_after_flag (n : nat) :
  forall first s, idr_after n first (f s) = idr_after n first s.
Proof.
  induction n as [|n IH]; intros first s; cbn [idr_after].
  - apply f_keeps_idr.
  - now rewrite f_keeps_idr, f_arbitrate, <- f_idr, IH.
Qed.

Lemma output_after_flag (n : nat) :
  forall first s, output_after n first (f s) = output_after n first s.
Proof.
  induction n as [|n IH]; intros first s; cbn [output_after].
  - reflexivity.
  - now rewrite f_keeps_idr, f_arbitrate, f_output, <- f_idr, IH.
Qed.

Lemma resolve_flag (s : STM32GPIOState) : resolve (f s) = f (resolve s).
Proof.
  unfold resolve. now rewrite f_keeps_ngpio, idr_after_flag, f_idr.
Qed.

Lemma resolve_output_flag (s : STM32GPIOState) :
  resolve_output (f s) = resolve_output s.
Proof.
  unfold resolve_output. now rewrite f_keeps_ngpio, output_after_flag.
Qed.

End Flags.

Lemma resolve_set_reset (b : bool) (s : STM32GPIOState) :
  resolve (set_reset b s) = set_reset b (resolve s).
Proof. apply resolve_flag; reflexivity. Qed.

Lemma resolve_output_set_reset (b : bool) (s : STM32GPIOState) :
  resolve_output (set_reset b s) = resolve_output s.
Proof. apply resolve_output_flag; reflexivity. Qed.

Lemma resolve_set_enable (b : bool) (s : STM32GPIOState) :
  resolve (set_enable b s) = set_enable b (resolve s).
Proof. apply resolve_flag; reflexivity. Qed.

Lemma resolve_output_set_enable (b : bool) (s : STM32GPIOState) :
  resolve_output (set_enable b s) = resolve_output s.
Proof. apply resolve_output_flag; reflexivity. Qed.

Lemma write_switch_set_reset (b : bool) (offset value : Z)
      (s s1 : STM32GPIOState) (pre : list event) :
  write_switch offset value s = Ret tt s1 pre ->
  write_switch offset value (set_reset b s) = Ret tt (set_reset b s1) pre.
Proof.
  unfold write_switch, bind, get, modify, qemu_log_guest_error, emit, ret.
  cbn [family set_reset].
  repeat match goal with
         | |- context [if ?c then _ else _] => destruct c
         end;
    intros [= <- <-]; reflexivity.
Qed.

Lemma no_notification_no_pulse (l : list event) :
  filter is_notification l = [] -> filter is_pulse l = [].
Proof.
  induction l as [|e l IH]; [reflexivity|].
  destruct e; cbn [filter is_notification is_pulse]; try discriminate.
  exact IH.
Qed.

(** * Register writes *)

(** C6: a write to a powered port, whatever the offset, is the register
    switch followed by one resolution step; the switch raises no IRQ, so
    the whole write emits exactly one state pulse, as its last event, and
    leaves a settled state. *)
Theorem write_resolves_once (s : STM32GPIOState) (offset value size : Z) :
  enable s = true -> ngpio s <= 16 ->
  exists s1 pre s' out,
    write_switch offset value s = Ret tt s1 pre /\
    filter is_notification pre = [] /\
    stm32_gpio_update_state s1 = Ret tt s' out /\
    stm32_gpio_write offset value size s = Ret tt s' (pre ++ out) /\
    pulses (pre ++ out) = 1%nat /\
    (exists mid, out = mid ++ [PulseStateIrq]) /\
    settled s'.
Proof.
  intros He Hn.
  destruct (write_switch_frame offset value s) as (s1 & pre & Hw & Hf & Hpre).
  assert (H1 : ngpio s1 = ngpio s) by apply Hf.
  exists s1, pre, (resolve s1), (resolve_output s1 ++ [PulseStateIrq]).
  split; [exact Hw|]. split; [exact Hpre|].
  split; [apply update_state_spec; lia|].
  split; [now apply write_enabled|].
  split; [apply pulses_resolve_output, no_notification_no_pulse, Hpre|].
  split; [now exists (resolve_output s1)|].
  apply settled_resolve. lia.
Qed.

Lemma write_resolves_once_witness :
  exists s1 pre s' out,
    write_switch STM32_GPIO_REG_IDR 0xFFFF sample_port = Ret tt s1 pre /\
    filter is_notification pre = [] /\
    stm32_gpio_update_state s1 = Ret tt s' out /\
    stm32_gpio_write STM32_GPIO_REG_IDR 0xFFFF 4 sample_port =
    Ret tt s' (pre ++ out) /\
    pulses (pre ++ out) = 1%nat /\
    (exists mid, out = mid ++ [PulseStateIrq]) /\
    settled s'.
Proof.
  apply (write_resolves_once sample_port STM32_GPIO_REG_IDR 0xFFFF 4);
    [reflexivity|simpl; lia].
Defined.

Lemma testbit_0xFFFF (k : Z) : 0 <= k -> Z.testbit 0xFFFF k = (k <? 16).
Proof.
  intros Hk. change 0xFFFF with (Z.ones 16).
  now rewrite Z.testbit_ones_nonneg by lia.
Qed.

Lemma bsrr_odr (o v : Z) :
  0 <= o < 2 ^ 32 ->
  u32 (Z.lor (u32 (Z.land o (not64 (Z.land (Z.shiftr v 16) 0xFFFF))))
             (Z.land v 0xFFFF)) =
  Z.lor (Z.land o (Z.lnot (Z.land (Z.shiftr v 16) 0xFFFF)))
        (Z.land v 0xFFFF).
Proof.
  intros Ho. apply Z.bits_inj'. intros k Hk. unfold not64.
  rewrite testbit_u32, !Z.lor_spec, testbit_u32, !Z.land_spec, testbit_u64,
    Z.lnot_spec, !Z.land_spec, testbit_0xFFFF by lia.
  destruct (Z.ltb_spec k 32) as [H32|H32]; cbn [andb].
  - replace (k <? 64) with true by (symmetry; zbool). reflexivity.
  - rewrite (testbit_above_u32 o k) by lia.
    replace (k <? 16) with false by (symmetry; zbool).
    now rewrite !andb_false_r.
Qed.

Lemma brr_odr (o v : Z) :
  0 <= o < 2 ^ 32 ->
  u32 (Z.land o (not64 (Z.land v 0xFFFF))) =
  Z.land o (Z.lnot (Z.land v 0xFFFF)).
Proof.
  intros Ho. apply Z.bits_inj'. intros k Hk. unfold not64.
  rewrite testbit_u32, !Z.land_spec, testbit_u64, Z.lnot_spec, Z.land_spec,
    testbit_0xFFFF by lia.
  destruct (Z.ltb_spec k 32) as [H32|H32]; cbn [andb].
  - replace (k <? 64) with true by (symmetry; zbool). reflexivity.
  - now rewrite (testbit_above_u32 o k) by lia.
Qed.

(** C3: on a powered port a write of [v] to [BSRR] leaves
    [ODR = (odr & ~((v >> 16) & 0xFFFF)) | (v & 0xFFFF)]; a pin whose bit
    is in the set mask ends with its [ODR] bit set, whatever the reset
    mask says. *)
Theorem bsrr_write (s : STM32GPIOState) (v size : Z) :
  enable s = true -> ngpio s <= 16 -> 0 <= odr s < 2 ^ 32 ->
  exists s' out,
    stm32_gpio_write STM32_GPIO_REG_BSRR v size s = Ret tt s' out /\
    odr s' =
    Z.lor (Z.land (odr s) (Z.lnot (Z.land (Z.shiftr v 16) 0xFFFF)))
          (Z.land v 0xFFFF) /\
    (forall i, 0 <= i < 16 -> Z.testbit v i = true ->
               Z.testbit (odr s') i = true).
Proof.
  intros He Hn Ho.
  pose (o' := u32 (Z.lor
                (u32 (Z.land (odr s)
                             (not64 (Z.land (Z.shiftr v 16) 0xFFFF))))
                (Z.land v 0xFFFF))).
  assert (Hw : write_switch STM32_GPIO_REG_BSRR v s =
               Ret tt (set_odr o' s) []) by reflexivity.
  exists (resolve (set_odr o' s)),
    ([] ++ resolve_output (set_odr o' s) ++ [PulseStateIrq]).
  split; [now apply (write_enabled _ _ _ _ _ _ He Hn Hw)|].
  change (odr (resolve (set_odr o' s))) with o'. subst o'.
  rewrite bsrr_odr by exact Ho. split; [reflexivity|].
  intros i Hi Hv.
  rewrite Z.lor_spec, (Z.land_spec v), Hv, testbit_0xFFFF by lia.
  replace (i <? 16) with true by (symmetry; zbool).
  now rewrite orb_true_r.
Qed.

Lemma bsrr_write_witness :
  exists s' out,
    stm32_gpio_write STM32_GPIO_REG_BSRR 0x00200020 4 sample_port =
    Ret tt s' out /\
    odr s' =
    Z.lor (Z.land (odr sample_port)
                  (Z.lnot (Z.land (Z.shiftr 0x00200020 16) 0xFFFF)))
          (Z.land 0x00200020 0xFFFF) /\
    (forall i, 0 <= i < 16 -> Z.testbit 0x00200020 i = true ->
               Z.testbit (odr s') i = true).
Proof.
  apply (bsrr_write sample_port 0x00200020 4);
    [reflexivity|simpl; lia|simpl; lia].
Defined.

Lemma output_after_kinds (n : nat) :
  forall (first : Z) (s : STM32GPIOState) (e : event),
    In e (output_after n first s) ->
    (exists k, e = LogGuestError (ShortCircuited k)) \/
    (exists k b, e = SetInputIrq k b).
Proof.
  induction n as [|n IH]; intros first s e; cbn [output_after].
  - intros [].
  - rewrite in_app_iff. intros [H|H]; [|now apply IH in H].
    unfold pin_output in H. apply in_app_iff in H. destruct H as [H|H].
    + destruct (hazard s first); [|destruct H].
      destruct H as [<-|[]]. left. now exists first.
    + destruct (_ && _); [|destruct H].
      destruct H as [<-|[]]. right. now do 2 eexists.
Qed.

Lemma resolve_output_no_bad_offset (s : STM32GPIOState) (offset : Z) :
  ~ In (LogGuestError (BadWriteOffset offset))
       (resolve_output s ++ [PulseStateIrq]).
Proof.
  rewrite in_app_iff. intros [H|[H|[]]]; [|discriminate H].
  apply output_after_kinds in H.
  destruct H as [(k & H)|(k & b & H)]; discriminate H.
Qed.

(** C4, as the code has it: on a powered port of a family with [BRR]
    (every family but F4) a write of [v] to [BRR] leaves
    [ODR = odr & ~(v & 0xFFFF)], clearing exactly the requested bits, and
    changes no other register except [IDR], which the resolution step
    recomputes from the new [ODR]; on F4 the write logs an invalid offset
    and changes no register except [IDR], which is recomputed and so keeps
    its value whenever it was settled. *)
Theorem brr_write (s : STM32GPIOState) (v size : Z) :
  enable s = true -> ngpio s <= 16 -> 0 <= odr s < 2 ^ 32 ->
  exists s' out,
    stm32_gpio_write STM32_GPIO_REG_BRR v size s = Ret tt s' out /\
    settled s' /\
    if family s =? STM32_F4 then
      In (LogGuestError (BadWriteOffset STM32_GPIO_REG_BRR)) out /\
      s' = set_idr (idr s') s /\
      (settled s -> s' = s)
    else
      ~ In (LogGuestError (BadWriteOffset STM32_GPIO_REG_BRR)) out /\
      odr s' = Z.land (odr s) (Z.lnot (Z.land v 0xFFFF)) /\
      (forall k, 0 <= k ->
                 Z.testbit (odr s') k =
                 Z.testbit (odr s) k && negb (Z.testbit v k && (k <? 16))) /\
      s' = set_idr (idr s') (set_odr (odr s') s).
Proof.
  intros He Hn Ho. destruct (family s =? STM32_F4) eqn:Hf.
  - assert (Hw : write_switch STM32_GPIO_REG_BRR v s =
                 Ret tt s [LogGuestError (BadWriteOffset STM32_GPIO_REG_BRR)]).
    { unfold write_switch, bind, get. cbn -[Z.eqb]. rewrite Hf.
      reflexivity. }
    exists (resolve s),
      ([LogGuestError (BadWriteOffset STM32_GPIO_REG_BRR)]
         ++ resolve_output s ++ [PulseStateIrq]).
    split; [now apply (write_enabled _ _ _ _ _ _ He Hn Hw)|].
    split; [now apply settled_resolve|].
    split; [now left|]. split; [reflexivity|].
    intros Hs. exact Hs.
  - pose (o' := u32 (Z.land (odr s) (not64 (Z.land v 0xFFFF)))).
    assert (Hw : write_switch STM32_GPIO_REG_BRR v s =
                 Ret tt (set_odr o' s) []).
    { unfold write_switch, bind, get. cbn -[Z.eqb not64 u32]. rewrite Hf.
      reflexivity. }
    exists (resolve (set_odr o' s)),
      ([] ++ resolve_output (set_odr o' s) ++ [PulseStateIrq]).
    split; [now apply (write_enabled _ _ _ _ _ _ He Hn Hw)|].
    split; [apply settled_resolve; exact Hn|].
    split; [apply resolve_output_no_bad_offset|].
    change (odr (resolve (set_odr o' s))) with o'.
    assert (Ho' : o' = Z.land (odr s) (Z.lnot (Z.land v 0xFFFF)))
      by (subst o'; now apply brr_odr).
    split; [exact Ho'|]. split; [|reflexivity].
    intros k Hk. rewrite Ho'.
    now rewrite Z.land_spec, Z.lnot_spec, Z.land_spec, testbit_0xFFFF by lia.
Qed.

Lemma brr_write_witness :
  exists s' out,
    stm32_gpio_write STM32_GPIO_REG_BRR 1 4 latched_port = Ret tt s' out /\
    settled s' /\
    ~ In (LogGuestError (BadWriteOffset STM32_GPIO_REG_BRR)) out /\
    odr s' = Z.land (odr latched_port) (Z.lnot (Z.land 1 0xFFFF)) /\
    (forall k, 0 <= k ->
               Z.testbit (odr s') k =
               Z.testbit (odr latched_port) k &&
               negb (Z.testbit 1 k && (k <? 16))) /\
    s' = set_idr (idr s') (set_odr (odr s') latched_port).
Proof.
  apply (brr_write latched_port 1 4); [reflexivity|simpl; lia|simpl; lia].
Defined.

(** C4 as stated fails: on the F2 port with pin 0 an output and its latch
    set, writing 1 to [BRR] clears [ODR] bit 0 and the resolution step that
    ends the write clears [IDR] bit 0 as well, so a register other than
    [ODR] changes. *)
Lemma brr_write_changes_idr :
  ~ (forall s v size s' out,
        enable s = true -> ngpio s <= 16 -> family s <> STM32_F4 ->
        stm32_gpio_write STM32_GPIO_REG_BRR v size s = Ret tt s' out ->
        odr s' = Z.land (odr s) (Z.lnot (Z.land v 0xFFFF)) /\
        config_of s' = config_of (set_odr (odr s') s) /\
        idr s' = idr s).
Proof.
  intros H.
  assert (Hw : stm32_gpio_write STM32_GPIO_REG_BRR 1 4 latched_port =
               Ret tt (set_idr 0 (set_odr 0 latched_port)) [PulseStateIrq])
    by reflexivity.
  assert (Hf : family latched_port <> STM32_F4) by discriminate.
  assert (Hn : ngpio latched_port <= 16) by (simpl; lia).
  destruct (H latched_port 1 4 _ _ eq_refl Hn Hf Hw) as (_ & _ & Hidr).
  discriminate Hidr.
Qed.

(** C2, as the code has it: the reset line is not consulted by a register
    write.  A write to a powered port held in reset returns, keeps the
    port in reset and has exactly the effect and the output of the same
    write on the port out of reset. *)
Theorem write_ignores_reset (s : STM32GPIOState) (offset value size : Z) :
  reset s = true -> enable s = true -> ngpio s <= 16 ->
  exists s' out,
    stm32_gpio_write offset value size s = Ret tt s' out /\
    reset s' = true /\
    stm32_gpio_write offset value size (set_reset false s) =
    Ret tt (set_reset false s') out.
Proof.
  intros Hr He Hn.
  destruct (write_switch_frame offset value s) as (s1 & pre & Hw & Hf & _).
  assert (H1 : ngpio s1 = ngpio s) by apply Hf.
  assert (Hr1 : reset s1 = reset s) by apply Hf.
  exists (resolve s1), (pre ++ resolve_output s1 ++ [PulseStateIrq]).
  split; [now apply write_enabled|].
  split; [change (reset (resolve s1)) with (reset s1); congruence|].
  rewrite <- resolve_set_reset, <- (resolve_output_set_reset false s1).
  apply write_enabled.
  - exact He.
  - exact Hn.
  - now apply write_switch_set_reset.
  - exact H1.
Qed.

Lemma write_ignores_reset_witness :
  exists s' out,
    stm32_gpio_write STM32_GPIO_REG_MODER 1 4 port_in_reset = Ret tt s' out /\
    reset s' = true /\
    stm32_gpio_write STM32_GPIO_REG_MODER 1 4 (set_reset false port_in_reset)
    = Ret tt (set_reset false s') out.
Proof.
  apply (write_ignores_reset port_in_reset STM32_GPIO_REG_MODER 1 4);
    [reflexivity|reflexivity|simpl; lia].
Defined.

(** C2 as stated fails: on the powered F2 port held in reset, whose
    registers are at their defaults, writing 1 to [MODER] stores 1, which
    is not the default. *)
Lemma write_under_reset_takes_effect :
  ~ (forall s offset value size s' out,
        reset s = true -> enable s = true -> ngpio s <= 16 ->
        stm32_gpio_write offset value size s = Ret tt s' out ->
        config_of s' = default_table (family s) (port s)).
Proof.
  intros H.
  assert (Hw : stm32_gpio_write STM32_GPIO_REG_MODER 1 4 port_in_reset =
               Ret tt (set_moder 1 port_in_reset) [PulseStateIrq])
    by reflexivity.
  assert (Hn : ngpio port_in_reset <= 16) by (simpl; lia).
  pose proof (H port_in_reset STM32_GPIO_REG_MODER 1 4 _ _
                eq_refl eq_refl Hn Hw) as Hc.
  discriminate Hc.
Qed.

(** * The power gate *)

Lemma bind_prepend {A B : Type} (m : M A) (f : A -> M B)
      (s s1 : STM32GPIOState) (a : A) (o : list event) :
  m s = Ret a s1 o -> bind m f s = prepend o (f a s1).
Proof. intros H. unfold bind, prepend. now rewrite H. Qed.

Lemma prepend_nil {A : Type} (o : outcome A) : prepend [] o = o.
Proof. destruct o; reflexivity. Qed.

Lemma prepend_prepend {A : Type} (p q : list event) (o : outcome A) :
  prepend p (prepend q o) = prepend (p ++ q) o.
Proof. destruct o; cbn [prepend]; [now rewrite app_assoc|reflexivity]. Qed.

Lemma perform_access_disabled (op : operation) (sd : STM32GPIOState) :
  enable sd = false -> is_access op = true ->
  exists e, perform op sd = Ret tt sd [LogGuestError e].
Proof.
  intros He Ha. destruct op; try discriminate Ha; cbn [perform].
  - exists WriteDisabled. now apply write_disabled.
  - exists ReadDisabled.
    rewrite (bind_prepend _ _ _ _ _ _ (read_disabled offset 4 sd He)).
    reflexivity.
Qed.

Lemma run_accesses_disabled (ops : list operation) :
  forall (sd : STM32GPIOState) (rest : list operation),
    enable sd = false -> forallb is_access ops = true ->
    exists pre, run (ops ++ rest) sd = prepend pre (run rest sd).
Proof.
  induction ops as [|op ops IH]; intros sd rest He Ha.
  - exists []. now rewrite prepend_nil.
  - cbn [forallb] in Ha. apply andb_true_iff in Ha. destruct Ha as [Ho Ha].
    destruct (perform_access_disabled op sd He Ho) as (e & Hp).
    destruct (IH sd rest He Ha) as (pre & Hrun).
    exists ([LogGuestError e] ++ pre).
    cbn [app run]. rewrite (bind_prepend _ _ _ _ _ _ Hp), Hrun.
    apply prepend_prepend.
Qed.

Lemma set_enable_back (s : STM32GPIOState) :
  enable s = true -> set_enable true (set_enable false s) = s.
Proof. destruct s; cbn. now intros ->. Qed.

Lemma power_cycle (s : STM32GPIOState) (ops : list operation) :
  enable s = true -> ngpio s <= 16 -> settled s ->
  forallb is_access ops = true ->
  exists out, run (IrqEnable 0 :: ops ++ [IrqEnable 1]) s = Ret tt s out.
Proof.
  intros He Hn Hs Ha. unfold settled in Hs.
  assert (Hoff : stm32_gpio_irq_enable 0 0 s =
                 Ret tt (set_enable false s)
                     (resolve_output s ++ [PulseStateIrq])).
  { rewrite irq_enable_edge by (try exact Hn; rewrite He; discriminate).
    cbn [Z.eqb negb].
    now rewrite resolve_set_enable, resolve_output_set_enable, Hs. }
  destruct (run_accesses_disabled ops (set_enable false s) [IrqEnable 1]
              eq_refl Ha) as (pre & Hrun).
  assert (Hon : stm32_gpio_irq_enable 0 1 (set_enable false s) =
                Ret tt s (resolve_output s ++ [PulseStateIrq])).
  { rewrite irq_enable_edge by (try exact Hn; discriminate).
    change (negb (1 =? 0)) with true.
    now rewrite set_enable_back, Hs by exact He. }
  eexists. cbn [run perform].
  rewrite (bind_prepend _ _ _ _ _ _ Hoff), Hrun.
  cbn [run perform]. rewrite (bind_prepend _ _ _ _ _ _ Hon).
  reflexivity.
Qed.

Lemma read_register (s : STM32GPIOState) (offset content size : Z) :
  enable s = true -> In (offset, content) (register_file s) ->
  stm32_gpio_read offset size s = Ret content s [].
Proof.
  intros He Hin. unfold register_file in Hin. cbn [In] in Hin.
  destruct Hin as [H|[H|[H|[H|[H|[H|[H|[H|[H|[]]]]]]]]]];
    injection H as <- <-;
    unfold stm32_gpio_read, bind, get; rewrite He; reflexivity.
Qed.

Lemma disabled_period (s : STM32GPIOState) (ops : list operation) :
  enable s = true -> ngpio s <= 16 -> settled s ->
  forallb is_access ops = true ->
  exists out, run (IrqEnable 0 :: ops) s = Ret tt (set_enable false s) out.
Proof.
  intros He Hn Hs Ha. unfold settled in Hs.
  assert (Hoff : stm32_gpio_irq_enable 0 0 s =
                 Ret tt (set_enable false s)
                     (resolve_output s ++ [PulseStateIrq])).
  { rewrite irq_enable_edge by (try exact Hn; rewrite He; discriminate).
    cbn [Z.eqb negb].
    now rewrite resolve_set_enable, resolve_output_set_enable, Hs. }
  destruct (run_accesses_disabled ops (set_enable false s) []
              eq_refl Ha) as (pre & Hrun).
  rewrite app_nil_r in Hrun.
  eexists. cbn [run perform].
  rewrite (bind_prepend _ _ _ _ _ _ Hoff), Hrun. reflexivity.
Qed.

(** C7: on a port [d] that is not powered, a read of any offset returns 0
    and a write leaves every field as it is; either only logs that the
    peripheral is disabled.  Disabling a powered port [s] and attempting
    any reads and writes leaves every field but the power flag as it was;
    enabling the port again gives [s] back, and a read of any readable
    register then returns the field that [s] held before the port was
    disabled: [MODER] the stored mode bits, [IDR] the resolved levels, and
    so on for the nine registers of [register_file]. *)
Theorem powered_gate (d s : STM32GPIOState) (ops : list operation) :
  enable d = false ->
  enable s = true -> ngpio s <= 16 -> settled s ->
  forallb is_access ops = true ->
  (forall offset size,
      stm32_gpio_read offset size d = Ret 0 d [LogGuestError ReadDisabled]) /\
  (forall offset value size,
      stm32_gpio_write offset value size d =
      Ret tt d [LogGuestError WriteDisabled]) /\
  (exists out, run (IrqEnable 0 :: ops) s = Ret tt (set_enable false s) out)
  /\
  (exists out,
      run (IrqEnable 0 :: ops ++ [IrqEnable 1]) s = Ret tt s out /\
      forall offset content size,
        In (offset, content) (register_file s) ->
        (run (IrqEnable 0 :: ops ++ [IrqEnable 1]) ;;
         stm32_gpio_read offset size) s = Ret content s out) /\
  (forall offset size,
      returned ((run (IrqEnable 0 :: ops ++ [IrqEnable 1]) ;;
                 stm32_gpio_read offset size) s) =
      returned (stm32_gpio_read offset size s)).
Proof.
  intros Hd He Hn Hs Ha.
  split; [intros; now apply read_disabled|].
  split; [intros; now apply write_disabled|].
  split; [now apply disabled_period|].
  destruct (power_cycle s ops He Hn Hs Ha) as (out & Hrun).
  split.
  - exists out. split; [exact Hrun|].
    intros offset content size Hin.
    rewrite (bind_prepend _ _ _ _ _ _ Hrun).
    rewrite (read_register s offset content size He Hin).
    cbn [prepend]. now rewrite app_nil_r.
  - intros offset size. rewrite (bind_prepend _ _ _ _ _ _ Hrun).
    destruct (stm32_gpio_read offset size s); reflexivity.
Qed.

Lemma powered_gate_witness :
  (forall offset size,
      stm32_gpio_read offset size (set_enable false sample_port) =
      Ret 0 (set_enable false sample_port) [LogGuestError ReadDisabled]) /\
  (forall offset value size,
      stm32_gpio_write offset value size (set_enable false sample_port) =
      Ret tt (set_enable false sample_port) [LogGuestError WriteDisabled]) /\
  (exists out,
      run (IrqEnable 0 ::
           [Write STM32_GPIO_REG_MODER 0xFF; Read STM32_GPIO_REG_IDR])
          sample_port = Ret tt (set_enable false sample_port) out) /\
  (exists out,
      run (IrqEnable 0 ::
           [Write STM32_GPIO_REG_MODER 0xFF; Read STM32_GPIO_REG_IDR]
           ++ [IrqEnable 1]) sample_port = Ret tt sample_port out /\
      forall offset content size,
        In (offset, content) (register_file sample_port) ->
        (run (IrqEnable 0 ::
              [Write STM32_GPIO_REG_MODER 0xFF; Read STM32_GPIO_REG_IDR]
              ++ [IrqEnable 1]) ;;
         stm32_gpio_read offset size) sample_port =
        Ret content sample_port out) /\
  (forall offset size,
      returned ((run (IrqEnable 0 ::
                      [Write STM32_GPIO_REG_MODER 0xFF;
                       Read STM32_GPIO_REG_IDR] ++ [IrqEnable 1]) ;;
                 stm32_gpio_read offset size) sample_port) =
      returned (stm32_gpio_read offset size sample_port)).
Proof.
  apply (powered_gate (set_enable false sample_port) sample_port
           [Write STM32_GPIO_REG_MODER 0xFF; Read STM32_GPIO_REG_IDR]);
    [reflexivity|reflexivity|simpl; lia|reflexivity|reflexivity].
Defined.

(** * The control lines *)

Lemma pulses_resolve (s : STM32GPIOState) :
  pulses (resolve_output s ++ [PulseStateIrq]) = 1%nat.
Proof. exact (pulses_resolve_output s [] eq_refl). Qed.

Lemma irq_reset_edge (s : STM32GPIOState) (line value : Z) :
  ngpio s <= 16 -> reset s = (value =? 0) ->
  exists s' out,
    stm32_gpio_irq_reset line value s = Ret tt s' out /\
    stm32_gpio_update_state (reset_edge_state value s) = Ret tt s' out /\
    reset s' = negb (value =? 0) /\
    enable s' = enable s /\
    config_of s' =
    (if value =? 0 then config_of s
     else default_table (family s) (port s)) /\
    settled s' /\
    pulses out = 1%nat /\
    (value = 0 -> settled s -> s' = set_reset false s).
Proof.
  intros Hn Hr. unfold reset_edge_state.
  destruct (Z.eqb_spec value 0) as [->|Hv].
  - exists (resolve (set_reset false s)),
      (resolve_output (set_reset false s) ++ [PulseStateIrq]).
    split; [now apply irq_reset_falling|].
    split; [now apply update_state_spec|].
    repeat split.
    + now apply settled_resolve.
    + apply pulses_resolve.
    + intros _ Hs. rewrite resolve_set_reset. now rewrite Hs.
  - exists (resolve (with_config (default_table (family s) (port s))
                                 (set_reset true s))),
      (resolve_output (with_config (default_table (family s) (port s))
                                   (set_reset true s)) ++ [PulseStateIrq]).
    split; [now apply irq_reset_rising|].
    split; [now apply update_state_spec|].
    repeat split.
    + cbn. now destruct (default_table (family s) (port s)).
    + now apply settled_resolve.
    + apply pulses_resolve.
    + intros H. contradiction.
Qed.



Lemma drive_frame (line value : Z) (s : STM32GPIOState) :
  ngpio (drive line value s) = ngpio s /\
  enable (drive line value s) = enable s /\
  idr (drive line value s) = idr s /\
  moder (drive line value s) = moder s.
Proof. unfold drive. destruct (0 <=? value); repeat split. Qed.

Lemma drive_present (line value : Z) (s : STM32GPIOState) (k : Z) :
  0 <= line < 32 -> 0 <= k < 32 ->
  external_drive_present (drive line value s) k =
  if k =? line then 0 <=? value else external_drive_present s k.
Proof.
  intros Hl Hk. unfold drive, external_drive_present.
  destruct (0 <=? value); cbn [in_mask set_in set_in_mask];
    rewrite testbit_with_bit by lia;
    replace (k <? 32) with true by (symmetry; zbool);
    destruct (k =? line); reflexivity.
Qed.

Lemma drive_level (line value : Z) (s : STM32GPIOState) (k : Z) :
  0 <= line < 32 -> 0 <= k < 32 ->
  external_drive_level (drive line value s) k =
  if (k =? line) && (0 <=? value) then negb (value =? 0)
  else external_drive_level s k.
Proof.
  intros Hl Hk. unfold drive, external_drive_level.
  destruct (0 <=? value); cbn [in_ set_in set_in_mask].
  - rewrite testbit_with_bit by lia.
    replace (k <? 32) with true by (symmetry; zbool).
    destruct (k =? line); cbn [andb]; [now rewrite andb_true_r|reflexivity].
  - now rewrite andb_false_r.
Qed.

Lemma irq_set_effect (s : STM32GPIOState) (line value : Z) :
  ngpio s <= 16 -> 0 <= line < ngpio s ->
  exists s' out,
    stm32_gpio_irq_set line value s = Ret tt s' out /\
    enable s' = enable s /\
    (forall k, 0 <= k < 32 ->
       external_drive_present s' k =
       if k =? line then 0 <=? value else external_drive_present s k) /\
    (forall k, 0 <= k < 32 ->
       external_drive_level s' k =
       if (k =? line) && (0 <=? value) then negb (value =? 0)
       else external_drive_level s k) /\
    (forall k, 0 <= k < ngpio s -> resolved_level s' k = arbitrate s' k) /\
    settled s' /\
    pulses out = 1%nat /\
    (forall k b,
       In (SetInputIrq k b) out <->
       0 <= k < ngpio s /\ resolved_level s' k <> resolved_level s k /\
       pin_mode s k = Input /\ b = resolved_level s' k).
Proof.
  intros Hn Hl.
  destruct (drive_frame line value s) as (Dn & De & Di & Dm).
  exists (resolve (drive line value s)),
    (resolve_output (drive line value s) ++ [PulseStateIrq]).
  split; [now apply irq_set_spec|].
  split; [exact De|].
  split; [intros k Hk; apply (drive_present line value s k); lia|].
  split; [intros k Hk; apply (drive_level line value s k); lia|].
  split; [intros k Hk; rewrite resolve_level by lia; reflexivity|].
  split; [apply settled_resolve; lia|].
  split; [apply pulses_resolve|].
  intros k b. rewrite in_resolve_output_irq by lia.
  unfold resolved_level at 2, pin_mode. now rewrite Dn, Di, Dm.
Qed.

Lemma irq_enable_effect (s : STM32GPIOState) (line value : Z) :
  ngpio s <= 16 -> enable s = false -> value <> 0 ->
  exists s' out,
    stm32_gpio_irq_enable line value s = Ret tt s' out /\
    enable s' = true /\ config_of s' = config_of s /\
    settled s' /\ pulses out = 1%nat.
Proof.
  intros Hn He Hv.
  exists (resolve (set_enable (negb (value =? 0)) s)),
    (resolve_output (set_enable (negb (value =? 0)) s) ++ [PulseStateIrq]).
  split.
  - apply irq_enable_edge; [exact Hn|].
    rewrite He. replace (value =? 0) with false by (symmetry; zbool).
    discriminate.
  - replace (value =? 0) with false by (symmetry; zbool).
    repeat split; [now apply settled_resolve|apply pulses_resolve].
Qed.

(** C10: the power gate guards register access only.  On a port that is
    not powered, the external-input line of a pin still records the drive
    of that pin (presence always, level when a level is given) and of no
    other pin, runs a resolution step that settles every level, raises the
    per-pin notifications that step owes and pulses the state line once;
    the enable line still powers the port and resolves; and an edge of the
    reset line still loads the defaults (rising) or keeps the
    configuration (falling) and resolves. *)
Theorem unpowered_lines (s : STM32GPIOState) (line value ev rv : Z) :
  enable s = false -> ngpio s <= 16 -> 0 <= line < ngpio s ->
  ev <> 0 -> reset s = (rv =? 0) ->
  (exists s' out,
      stm32_gpio_irq_set line value s = Ret tt s' out /\
      enable s' = false /\
      (forall k, 0 <= k < 32 ->
         external_drive_present s' k =
         if k =? line then 0 <=? value else external_drive_present s k) /\
      (forall k, 0 <= k < 32 ->
         external_drive_level s' k =
         if (k =? line) && (0 <=? value) then negb (value =? 0)
         else external_drive_level s k) /\
      (forall k, 0 <= k < ngpio s -> resolved_level s' k = arbitrate s' k) /\
      pulses out = 1%nat /\
      (forall k b,
         In (SetInputIrq k b) out <->
         0 <= k < ngpio s /\ resolved_level s' k <> resolved_level s k /\
         pin_mode s k = Input /\ b = resolved_level s' k)) /\
  (exists s' out,
      stm32_gpio_irq_enable line ev s = Ret tt s' out /\
      enable s' = true /\ settled s' /\ pulses out = 1%nat) /\
  (exists s' out,
      stm32_gpio_irq_reset line rv s = Ret tt s' out /\
      stm32_gpio_update_state (reset_edge_state rv s) = Ret tt s' out /\
      reset s' = negb (rv =? 0) /\ enable s' = false /\
      config_of s' =
      (if rv =? 0 then config_of s else default_table (family s) (port s)) /\
      settled s' /\ pulses out = 1%nat).
Proof.
  intros He Hn Hl Hev Hr. split; [|split].
  - destruct (irq_set_effect s line value Hn Hl)
      as (s' & out & H1 & H2 & H3 & H4 & H5 & _ & H7 & H8).
    exists s', out. rewrite He in H2.
    repeat (split; [assumption|]). exact H8.
  - destruct (irq_enable_effect s line ev Hn He Hev)
      as (s' & out & H1 & H2 & _ & H4 & H5).
    exists s', out. repeat split; assumption.
  - destruct (irq_reset_edge s line rv Hn Hr)
      as (s' & out & H1 & H2 & H3 & H4 & H5 & H6 & H7 & _).
    exists s', out. rewrite He in H4. repeat split; assumption.
Qed.

Lemma unpowered_lines_witness :
  (exists s' out,
      stm32_gpio_irq_set 3 1 fresh_port = Ret tt s' out /\
      enable s' = false /\
      (forall k, 0 <= k < 32 ->
         external_drive_present s' k =
         if k =? 3 then 0 <=? 1 else external_drive_present fresh_port k) /\
      (forall k, 0 <= k < 32 ->
         external_drive_level s' k =
         if (k =? 3) && (0 <=? 1) then negb (1 =? 0)
         else external_drive_level fresh_port k) /\
      (forall k, 0 <= k < ngpio fresh_port ->
         resolved_level s' k = arbitrate s' k) /\
      pulses out = 1%nat /\
      (forall k b,
         In (SetInputIrq k b) out <->
         0 <= k < ngpio fresh_port /\
         resolved_level s' k <> resolved_level fresh_port k /\
         pin_mode fresh_port k = Input /\ b = resolved_level s' k)) /\
  (exists s' out,
      stm32_gpio_irq_enable 3 1 fresh_port = Ret tt s' out /\
      enable s' = true /\ settled s' /\ pulses out = 1%nat) /\
  (exists s' out,
      stm32_gpio_irq_reset 3 1 fresh_port = Ret tt s' out /\
      stm32_gpio_update_state (reset_edge_state 1 fresh_port) =
      Ret tt s' out /\
      reset s' = negb (1 =? 0) /\ enable s' = false /\
      config_of s' =
      (if 1 =? 0 then config_of fresh_port
       else default_table (family fresh_port) (port fresh_port)) /\
      settled s' /\ pulses out = 1%nat).
Proof.
  apply (unpowered_lines fresh_port 3 1 1 1);
    [reflexivity|simpl; lia|simpl; lia|lia|reflexivity].
Defined.

(** * Further properties of the resolution step *)

(** X1: a resolution step that follows another one changes nothing and
    notifies no pin; it only pulses the state line. *)
Theorem resolve_twice (s : STM32GPIOState) :
  ngpio s <= 16 ->
  exists s1 out1 out2,
    stm32_gpio_update_state s = Ret tt s1 out1 /\
    stm32_gpio_update_state s1 = Ret tt s1 out2 /\
    (forall k b, ~ In (SetInputIrq k b) out2) /\
    pulses out2 = 1%nat.
Proof.
  intros Hn.
  assert (Hs : resolve (resolve s) = resolve s) by now apply settled_resolve.
  exists (resolve s), (resolve_output s ++ [PulseStateIrq]),
    (resolve_output (resolve s) ++ [PulseStateIrq]).
  split; [now apply update_state_spec|].
  split; [rewrite <- Hs at 2; now apply update_state_spec|].
  split; [|apply pulses_resolve].
  intros k b H. apply in_resolve_output_irq in H; [|exact Hn].
  destruct H as (_ & Hc & _). rewrite Hs in Hc. now apply Hc.
Qed.

Lemma resolve_twice_witness :
  exists s1 out1 out2,
    stm32_gpio_update_state sample_stale = Ret tt s1 out1 /\
    stm32_gpio_update_state s1 = Ret tt s1 out2 /\
    (forall k b, ~ In (SetInputIrq k b) out2) /\
    pulses out2 = 1%nat.
Proof. apply (resolve_twice sample_stale). simpl. lia. Defined.

Lemma update_pin_16 (s : STM32GPIOState) : update_pin 16 s = AssertFailed.
Proof.
  unfold update_pin, bind, get, lift.
  rewrite !extract32_bit by lia. reflexivity.
Qed.

Lemma update_pins_overrun (n : nat) :
  forall (first : Z) (s : STM32GPIOState),
    0 <= first <= 16 -> 16 < first + Z.of_nat n ->
    update_pins n first s = AssertFailed.
Proof.
  induction n as [|n IH]; intros first s Hf Hn; [lia|].
  cbn [update_pins]. unfold bind.
  destruct (Z.eq_dec first 16) as [->|Hne].
  - now rewrite update_pin_16.
  - rewrite update_pin_spec by lia. now rewrite IH by lia.
Qed.

(** X12: the resolution step returns exactly when the port has at most 16
    pins; with more, the field of pin 16 lies outside [MODER] and the
    assertion of [extract32] fails. *)
Theorem update_state_pin_bound (s : STM32GPIOState) :
  ngpio s <= 16 <-> stm32_gpio_update_state s <> AssertFailed.
Proof.
  split.
  - intros Hn. now rewrite update_state_spec.
  - intros H. destruct (Z.le_gt_cases (ngpio s) 16) as [Hle|Hgt]; [exact Hle|].
    exfalso. apply H. unfold stm32_gpio_update_state, bind, get.
    cbv beta iota. now rewrite update_pins_overrun by lia.
Qed.

(** X16: a bit of [IDR] beyond the pins of the port is never resolved: the
    step keeps it and neither notifies nor logs for it. *)
Theorem pins_beyond_port_untouched (s : STM32GPIOState) (k : Z) :
  ngpio s <= 16 -> 0 <= k -> ngpio s <= k < 32 ->
  exists s' out,
    stm32_gpio_update_state s = Ret tt s' out /\
    resolved_level s' k = resolved_level s k /\
    (forall b, ~ In (SetInputIrq k b) out) /\
    ~ In (LogGuestError (ShortCircuited k)) out.
Proof.
  intros Hn H0 Hk. exists (resolve s), (resolve_output s ++ [PulseStateIrq]).
  split; [now apply update_state_spec|]. split; [|split].
  - unfold resolved_level, resolve. cbn [idr set_idr].
    rewrite idr_after_bit by lia.
    replace ((0 <=? k) && (k <? 0 + Z.of_nat (Z.to_nat (ngpio s))))
      with false by (symmetry; zbool).
    reflexivity.
  - intros b H. apply in_resolve_output_irq in H; [lia|exact Hn].
  - rewrite in_app_iff. intros [H|[H|[]]]; [|discriminate H].
    unfold resolve_output in H. apply in_output_after_hazard in H. lia.
Qed.

Lemma pins_beyond_port_untouched_witness :
  exists s' out,
    stm32_gpio_update_state (stm32_gpio_init STM32_F2 STM32_GPIO_PORT_A 8)
    = Ret tt s' out /\
    resolved_level s' 9 =
    resolved_level (stm32_gpio_init STM32_F2 STM32_GPIO_PORT_A 8) 9 /\
    (forall b, ~ In (SetInputIrq 9 b) out) /\
    ~ In (LogGuestError (ShortCircuited 9)) out.
Proof.
  apply (pins_beyond_port_untouched
           (stm32_gpio_init STM32_F2 STM32_GPIO_PORT_A 8) 9);
    simpl; lia.
Defined.

(** * Further properties of register access *)

(** X2: on a powered port, a write to one of the eight read/write
    registers followed by a read of the same register returns the value
    written, truncated to 32 bits, and the read logs nothing. *)
Theorem write_read_roundtrip (s : STM32GPIOState)
        (offset value size size' : Z) :
  enable s = true -> ngpio s <= 16 -> In offset rw_registers ->
  exists s' out,
    stm32_gpio_write offset value size s = Ret tt s' out /\
    stm32_gpio_read offset size' s' = Ret (u32 value) s' [].
Proof.
  intros He Hn Hin.
  assert (Hgo : forall s1,
             write_switch offset value s = Ret tt s1 [] ->
             ngpio s1 = ngpio s -> enable s1 = true ->
             stm32_gpio_read offset size' (set_idr (idr (resolve s1)) s1) =
             Ret (u32 value) (set_idr (idr (resolve s1)) s1) [] ->
             exists s' out,
               stm32_gpio_write offset value size s = Ret tt s' out /\
               stm32_gpio_read offset size' s' = Ret (u32 value) s' []).
  { intros s1 Hw H1 _ Hr. exists (resolve s1). eexists.
    split; [exact (write_enabled _ _ _ _ _ _ He Hn Hw H1)|exact Hr]. }
  unfold rw_registers in Hin. cbn [In] in Hin.
  destruct Hin as [<-|[<-|[<-|[<-|[<-|[<-|[<-|[<-|[]]]]]]]]];
    eapply Hgo; try reflexivity; try exact He;
    unfold stm32_gpio_read, bind, get;
    cbn [enable set_idr set_moder set_otyper set_ospeedr set_pupdr set_odr
         set_lckr set_aflr set_afhr];
    rewrite He; reflexivity.
Qed.

Lemma write_read_roundtrip_witness :
  exists s' out,
    stm32_gpio_write STM32_GPIO_REG_PUPDR 0x155555555 4 sample_port =
    Ret tt s' out /\
    stm32_gpio_read STM32_GPIO_REG_PUPDR 4 s' = Ret 0x55555555 s' [].
Proof.
  apply (write_read_roundtrip sample_port STM32_GPIO_REG_PUPDR
           0x155555555 4 4);
    [reflexivity|simpl; lia|simpl; tauto].
Defined.

(** X3: a read never fails, never changes the device and raises no IRQ; it
    logs at most one line, and a read that logs returns 0. *)
Theorem read_is_silent (s : STM32GPIOState) (offset size : Z) :
  exists r out,
    stm32_gpio_read offset size s = Ret r s out /\
    filter is_notification out = [] /\
    (length out <= 1)%nat /\
    (out <> [] -> r = 0).
Proof.
  unfold stm32_gpio_read, bind, get, qemu_log_guest_error, emit, ret.
  repeat match goal with
         | |- context [if ?c then _ else _] => destruct c
         end;
    do 2 eexists; (split; [reflexivity|]); cbn;
    repeat split; try lia; try reflexivity; intros H; congruence.
Qed.

Lemma mapped_false (offset : Z) :
  mapped offset = false ->
  (offset =? STM32_GPIO_REG_MODER) = false /\
  (offset =? STM32_GPIO_REG_OTYPER) = false /\
  (offset =? STM32_GPIO_REG_OSPEEDR) = false /\
  (offset =? STM32_GPIO_REG_PUPDR) = false /\
  (offset =? STM32_GPIO_REG_IDR) = false /\
  (offset =? STM32_GPIO_REG_ODR) = false /\
  (offset =? STM32_GPIO_REG_BSRR) = false /\
  (offset =? STM32_GPIO_REG_LCKR) = false /\
  (offset =? STM32_GPIO_REG_AFRL) = false /\
  (offset =? STM32_GPIO_REG_AFRH) = false /\
  (offset =? STM32_GPIO_REG_BRR) = false.
Proof.
  unfold mapped, rw_registers. cbn [existsb]. rewrite !orb_false_iff.
  tauto.
Qed.

(** X4: on a powered port the write-only registers read as 0: [BSRR]
    silently, [BRR] silently on the families that have it and with a
    bad-offset line on F4; an offset outside the register map reads as 0
    with a bad-offset line. *)
Theorem read_unreadable (s : STM32GPIOState) (size : Z) :
  enable s = true ->
  stm32_gpio_read STM32_GPIO_REG_BSRR size s = Ret 0 s [] /\
  stm32_gpio_read STM32_GPIO_REG_BRR size s =
  Ret 0 s (if family s =? STM32_F4
           then [LogGuestError (BadReadOffset STM32_GPIO_REG_BRR)]
           else []) /\
  (forall offset,
      mapped offset = false ->
      stm32_gpio_read offset size s =
      Ret 0 s [LogGuestError (BadReadOffset offset)]).
Proof.
  intros He. split; [|split].
  - unfold stm32_gpio_read, bind, get. rewrite He. reflexivity.
  - unfold stm32_gpio_read, bind, get. rewrite He. cbn -[Z.eqb].
    change (STM32_GPIO_REG_BRR =? STM32_GPIO_REG_BRR) with true.
    cbn -[Z.eqb STM32_F4].
    destruct (family s =? STM32_F4); reflexivity.
  - intros offset Hm. apply mapped_false in Hm.
    destruct Hm as (H1 & H2 & H3 & H4 & H5 & H6 & H7 & H8 & H9 & H10 & H11).
    unfold stm32_gpio_read, bind, get. rewrite He. cbn [negb].
    rewrite H1, H2, H3, H4, H5, H6, H7, H8, H9, H10, H11. reflexivity.
Qed.

Lemma read_unreadable_witness :
  stm32_gpio_read STM32_GPIO_REG_BSRR 4 sample_port = Ret 0 sample_port [] /\
  stm32_gpio_read STM32_GPIO_REG_BRR 4 sample_port =
  Ret 0 sample_port
      (if family sample_port =? STM32_F4
       then [LogGuestError (BadReadOffset STM32_GPIO_REG_BRR)]
       else []) /\
  (forall offset,
      mapped offset = false ->
      stm32_gpio_read offset 4 sample_port =
      Ret 0 sample_port [LogGuestError (BadReadOffset offset)]).
Proof. apply (read_unreadable sample_port 4). reflexivity. Defined.

(** X5: on a powered port a write to the read-only [IDR] is nothing but a
    resolution step: same state, same output; on a settled port it
    changes nothing at all. *)
Theorem write_idr_ignored (s : STM32GPIOState) (value size : Z) :
  enable s = true -> ngpio s <= 16 ->
  stm32_gpio_write STM32_GPIO_REG_IDR value size s =
  stm32_gpio_update_state s /\
  (settled s ->
   final_state (stm32_gpio_write STM32_GPIO_REG_IDR value size s) = Some s).
Proof.
  intros He Hn.
  assert (Hw : write_switch STM32_GPIO_REG_IDR value s = Ret tt s [])
    by reflexivity.
  rewrite (write_enabled _ _ _ _ _ _ He Hn Hw eq_refl).
  rewrite update_state_spec by exact Hn. split; [reflexivity|].
  intros Hs. cbn [final_state]. now rewrite Hs.
Qed.

Lemma write_idr_ignored_witness :
  stm32_gpio_write STM32_GPIO_REG_IDR 0xFFFF 4 sample_port =
  stm32_gpio_update_state sample_port /\
  (settled sample_port ->
   final_state (stm32_gpio_write STM32_GPIO_REG_IDR 0xFFFF 4 sample_port)
   = Some sample_port).
Proof.
  apply (write_idr_ignored sample_port 0xFFFF 4); [reflexivity|simpl; lia].
Defined.

(** X6: on a powered port a write to an offset outside the register map
    logs a bad-offset line and then resolves: its output is that line
    followed by the output of a resolution step, and no register but
    [IDR] can differ afterwards. *)
Theorem write_unmapped (s : STM32GPIOState) (offset value size : Z) :
  enable s = true -> ngpio s <= 16 -> mapped offset = false ->
  exists s' out,
    stm32_gpio_update_state s = Ret tt s' out /\
    stm32_gpio_write offset value size s =
    Ret tt s' (LogGuestError (BadWriteOffset offset) :: out) /\
    s' = set_idr (idr s') s.
Proof.
  intros He Hn Hm. apply mapped_false in Hm.
  destruct Hm as (H1 & H2 & H3 & H4 & H5 & H6 & H7 & H8 & H9 & H10 & H11).
  assert (Hw : write_switch offset value s =
               Ret tt s [LogGuestError (BadWriteOffset offset)]).
  { unfold write_switch, bind, get.
    rewrite H1, H2, H3, H4, H5, H6, H7, H8, H9, H10, H11. reflexivity. }
  exists (resolve s), (resolve_output s ++ [PulseStateIrq]).
  split; [now apply update_state_spec|].
  split; [exact (write_enabled _ _ _ _ _ _ He Hn Hw eq_refl)|reflexivity].
Qed.

Lemma write_unmapped_witness :
  exists s' out,
    stm32_gpio_update_state sample_port = Ret tt s' out /\
    stm32_gpio_write 0x2C 7 4 sample_port =
    Ret tt s' (LogGuestError (BadWriteOffset 0x2C) :: out) /\
    s' = set_idr (idr s') sample_port.
Proof.
  apply (write_unmapped sample_port 0x2C 7 4);
    [reflexivity|simpl; lia|reflexivity].
Defined.

Lemma brr_as_bsrr_odr (o v : Z) :
  u32 (Z.land o (not64 (Z.land v 0xFFFF))) =
  u32 (Z.lor
         (u32 (Z.land o
                 (not64 (Z.land
                           (Z.shiftr (Z.shiftl (Z.land v 0xFFFF) 16) 16)
                           0xFFFF))))
         (Z.land (Z.shiftl (Z.land v 0xFFFF) 16) 0xFFFF)).
Proof.
  apply Z.bits_inj'. intros k Hk. unfold not64.
  rewrite !testbit_u32, Z.lor_spec, testbit_u32, !Z.land_spec, !testbit_u64,
    !Z.lnot_spec, !Z.land_spec, Z.shiftr_spec, !Z.shiftl_spec,
    !Z.land_spec, !testbit_0xFFFF by lia.
  replace (k + 16 - 16) with k by lia.
  destruct (Z.ltb_spec k 16) as [H16|H16].
  - rewrite (Z.testbit_neg_r v (k - 16)) by lia.
    replace (k <? 32) with true by (symmetry; zbool).
    replace (k <? 64) with true by (symmetry; zbool).
    destruct (Z.testbit o k), (Z.testbit v k); reflexivity.
  - destruct (k <? 32), (k <? 64), (Z.testbit o k), (Z.testbit v k),
      (Z.testbit v (k - 16)), (Z.testbit 65535 (k - 16)); reflexivity.
Qed.

(** X13: on a powered port of a family with [BRR], writing [v] to [BRR]
    is the same as writing [(v & 0xFFFF) << 16] to [BSRR]: same state and
    same output. *)
Theorem brr_is_bsrr_reset_half (s : STM32GPIOState) (v size : Z) :
  enable s = true -> ngpio s <= 16 -> (family s =? STM32_F4) = false ->
  stm32_gpio_write STM32_GPIO_REG_BRR v size s =
  stm32_gpio_write STM32_GPIO_REG_BSRR
                   (Z.shiftl (Z.land v 0xFFFF) 16) size s.
Proof.
  intros He Hn Hf.
  assert (Hbrr : write_switch STM32_GPIO_REG_BRR v s =
                 Ret tt (set_odr (u32 (Z.land (odr s)
                                         (not64 (Z.land v 0xFFFF)))) s) []).
  { unfold write_switch, bind, get. cbn -[Z.eqb not64 u32]. rewrite Hf.
    reflexivity. }
  assert (Hbsrr : write_switch STM32_GPIO_REG_BSRR
                               (Z.shiftl (Z.land v 0xFFFF) 16) s =
                  Ret tt (set_odr (u32 (Z.land (odr s)
                                          (not64 (Z.land v 0xFFFF)))) s) []).
  { rewrite brr_as_bsrr_odr. reflexivity. }
  rewrite (write_enabled _ _ _ _ _ _ He Hn Hbrr eq_refl).
  now rewrite (write_enabled _ _ _ _ _ _ He Hn Hbsrr eq_refl).
Qed.

Lemma brr_is_bsrr_reset_half_witness :
  stm32_gpio_write STM32_GPIO_REG_BRR 0x30021 4 sample_port =
  stm32_gpio_write STM32_GPIO_REG_BSRR
                   (Z.shiftl (Z.land 0x30021 0xFFFF) 16) 4 sample_port.
Proof.
  apply (brr_is_bsrr_reset_half sample_port 0x30021 4);
    [reflexivity|simpl; lia|reflexivity].
Defined.

(** X14: after a write of [v] to [ODR] on a powered port, a pin that
    nothing drives from outside reads bit [k] of [v] if it is an output,
    and its pull-up otherwise, whatever [v] is. *)
Theorem odr_write_drives_outputs (s : STM32GPIOState) (v size k : Z) :
  enable s = true -> ngpio s <= 16 -> 0 <= k < ngpio s ->
  external_drive_present s k = false ->
  exists s' out,
    stm32_gpio_write STM32_GPIO_REG_ODR v size s = Ret tt s' out /\
    resolved_level s' k =
    if is_output (pin_mode s k) then Z.testbit v k
    else is_pull_up (pin_pull s k).
Proof.
  intros He Hn Hk Hp.
  assert (Hw : write_switch STM32_GPIO_REG_ODR v s =
               Ret tt (set_odr (u32 v) s) []) by reflexivity.
  exists (resolve (set_odr (u32 v) s)). eexists.
  split; [exact (write_enabled _ _ _ _ _ _ He Hn Hw eq_refl)|].
  rewrite resolve_level by (cbn [ngpio set_odr]; lia).
  unfold arbitrate.
  change (external_drive_present (set_odr (u32 v) s) k)
    with (external_drive_present s k).
  rewrite Hp.
  change (pin_mode (set_odr (u32 v) s) k) with (pin_mode s k).
  change (pin_pull (set_odr (u32 v) s) k) with (pin_pull s k).
  unfold requested_output. cbn [odr set_odr]. rewrite testbit_u32.
  replace (k <? 32) with true by (symmetry; zbool). reflexivity.
Qed.

Lemma odr_write_drives_outputs_witness :
  exists s' out,
    stm32_gpio_write STM32_GPIO_REG_ODR 0 4 sample_port = Ret tt s' out /\
    resolved_level s' 5 = false.
Proof.
  apply (odr_write_drives_outputs sample_port 0 4 5);
    [reflexivity|simpl; lia|simpl; lia|reflexivity].
Defined.

(** * Further properties of the control lines *)

(** X11: the external-input line handler returns exactly when the line is
    a pin of the port; any other line trips its assertion. *)
Theorem irq_set_line_checked (s : STM32GPIOState) (line value : Z) :
  ngpio s <= 16 ->
  0 <= line < ngpio s <-> stm32_gpio_irq_set line value s <> AssertFailed.
Proof.
  intros Hn. split.
  - intros Hl. now rewrite irq_set_spec.
  - intros H.
    destruct (Z.le_gt_cases 0 line) as [H0|H0];
      [destruct (Z.lt_ge_cases line (ngpio s)) as [H1|H1]; [lia|]|];
      exfalso; apply H; apply irq_set_bad_line; lia.
Qed.

Lemma irq_set_line_checked_witness :
  0 <= 8 < ngpio (stm32_gpio_init STM32_F2 STM32_GPIO_PORT_A 8) <->
  stm32_gpio_irq_set 8 1 (stm32_gpio_init STM32_F2 STM32_GPIO_PORT_A 8)
  <> AssertFailed.
Proof.
  apply (irq_set_line_checked
           (stm32_gpio_init STM32_F2 STM32_GPIO_PORT_A 8) 8 1).
  simpl. lia.
Defined.

(** X15: the reset and enable lines act on edges only: a level equal to
    the stored flag leaves the device as it is, without a resolution step
    and without any output. *)
Theorem lines_edge_triggered (s : STM32GPIOState) (line rv ev : Z) :
  reset s = negb (rv =? 0) -> enable s = negb (ev =? 0) ->
  stm32_gpio_irq_reset line rv s = Ret tt s [] /\
  stm32_gpio_irq_enable line ev s = Ret tt s [].
Proof.
  intros Hr He. split.
  - now apply irq_reset_level.
  - now apply irq_enable_level.
Qed.

Lemma lines_edge_triggered_witness :
  stm32_gpio_irq_reset 0 7 port_in_reset = Ret tt port_in_reset [] /\
  stm32_gpio_irq_enable 0 1 port_in_reset = Ret tt port_in_reset [].
Proof.
  apply (lines_edge_triggered port_in_reset 0 7 1); reflexivity.
Defined.

Lemma drive_config (line value : Z) (s : STM32GPIOState) :
  config_of (drive line value s) = config_of s /\
  family (drive line value s) = family s /\
  port (drive line value s) = port s /\
  reset (drive line value s) = reset s.
Proof. unfold drive. destruct (0 <=? value); repeat split. Qed.

(** X17: after the external-input line of a pin is set, a given level
    (value >= 0) is what the pin reads, and the short circuit is logged
    for that pin exactly when it is an output; a disconnect (value < 0)
    lets the pin read its latch if it is an output and its pull-up
    otherwise. *)
Theorem external_drive_wins (s : STM32GPIOState) (line value : Z) :
  ngpio s <= 16 -> 0 <= line < ngpio s ->
  exists s' out,
    stm32_gpio_irq_set line value s = Ret tt s' out /\
    resolved_level s' line =
    (if 0 <=? value then negb (value =? 0)
     else if is_output (pin_mode s line) then requested_output s line
          else is_pull_up (pin_pull s line)) /\
    (In (LogGuestError (ShortCircuited line)) out <->
     0 <= value /\ pin_mode s line = Output).
Proof.
  intros Hn Hl.
  destruct (drive_frame line value s) as (Dn & _ & _ & Dm).
  destruct (drive_config line value s) as (Dc & _).
  assert (Hmode : pin_mode (drive line value s) line = pin_mode s line)
    by (unfold pin_mode; now rewrite Dm).
  assert (Hpull : pin_pull (drive line value s) line = pin_pull s line).
  { unfold pin_pull. injection Dc as _ _ _ Hp _ _ _ _. now rewrite Hp. }
  assert (Hodr : requested_output (drive line value s) line =
                 requested_output s line).
  { unfold requested_output. injection Dc as _ _ _ _ Ho _ _ _.
    now rewrite Ho. }
  assert (Hpres : external_drive_present (drive line value s) line =
                  (0 <=? value)).
  { rewrite drive_present by lia. now rewrite Z.eqb_refl. }
  exists (resolve (drive line value s)),
    (resolve_output (drive line value s) ++ [PulseStateIrq]).
  split; [now apply irq_set_spec|]. split.
  - rewrite resolve_level by lia. unfold arbitrate.
    rewrite Hpres, Hmode, Hpull, Hodr, drive_level by lia.
    rewrite Z.eqb_refl. cbn [andb].
    destruct (0 <=? value); reflexivity.
  - rewrite in_app_iff. unfold resolve_output.
    rewrite in_output_after_hazard. unfold hazard.
    rewrite Hpres, Hmode. split.
    + intros [(_ & H)|[H|[]]]; [|discriminate H].
      apply andb_true_iff in H. destruct H as [Hm Hv].
      split; [revert Hv; zbool|].
      destruct (pin_mode s line); try discriminate Hm. reflexivity.
    + intros (Hv & Hm). left. rewrite Hm. split; [lia|].
      cbn [is_output andb]. zbool.
Qed.

Lemma external_drive_wins_witness :
  exists s' out,
    stm32_gpio_irq_set 5 0 sample_port = Ret tt s' out /\
    resolved_level s' 5 = false /\
    (In (LogGuestError (ShortCircuited 5)) out <->
     0 <= 0 /\ pin_mode sample_port 5 = Output).
Proof.
  apply (external_drive_wins sample_port 5 0); simpl; lia.
Defined.

(** * Further properties of the device reset *)

(** X9: the device reset loads the default table, resolves once and
    pulses once; it touches neither the reset flag nor the power flag nor
    the external drive. *)
Theorem reset_keeps_power_and_drive (s : STM32GPIOState) :
  ngpio s <= 16 ->
  exists s' out,
    stm32_gpio_reset s = Ret tt s' out /\
    config_of s' = default_table (family s) (port s) /\
    reset s' = reset s /\ enable s' = enable s /\
    in_ s' = in_ s /\ in_mask s' = in_mask s /\
    settled s' /\ pulses out = 1%nat.
Proof.
  intros Hn.
  exists (resolve (with_config (default_table (family s) (port s)) s)).
  eexists. split; [now apply reset_spec|]. repeat split.
  - cbn. now destruct (default_table (family s) (port s)).
  - now apply settled_resolve.
  - apply pulses_resolve.
Qed.

Lemma reset_keeps_power_and_drive_witness :
  exists s' out,
    stm32_gpio_reset sample_port = Ret tt s' out /\
    config_of s' = mkConfig 0 0 0 0 0 0 0 0 /\
    reset s' = false /\ enable s' = true /\
    in_ s' = 0x40 /\ in_mask s' = 0x48 /\
    settled s' /\ pulses out = 1%nat.
Proof. apply (reset_keeps_power_and_drive sample_port). simpl. lia. Defined.

Lemma pin_cases (k : Z) :
  0 <= k < 16 ->
  k = 0 \/ k = 1 \/ k = 2 \/ k = 3 \/ k = 4 \/ k = 5 \/ k = 6 \/ k = 7 \/
  k = 8 \/ k = 9 \/ k = 10 \/ k = 11 \/ k = 12 \/ k = 13 \/ k = 14 \/ k = 15.
Proof. lia. Qed.

Lemma default_no_output (fam prt k : Z) (s : STM32GPIOState) :
  0 <= k < 16 ->
  is_output (pin_mode (with_config (default_table fam prt) s) k) = false.
Proof.
  intros Hk. unfold default_table.
  destruct (fam =? STM32_F4);
    [destruct (prt =? STM32_GPIO_PORT_A);
     [|destruct (prt =? STM32_GPIO_PORT_B)]|];
    destruct (pin_cases k Hk)
      as [->|[->|[->|[->|[->|[->|[->|[->|[->|[->|[->|[->|[->|[->|[->| ->]
         ]]]]]]]]]]]]]];
    reflexivity.
Qed.

Lemma default_pull_up (fam prt k : Z) (s : STM32GPIOState) :
  0 <= k < 16 ->
  is_pull_up (pin_pull (with_config (default_table fam prt) s) k) =
  Z.testbit (reset_idr fam prt) k.
Proof.
  intros Hk. unfold default_table, reset_idr.
  destruct (fam =? STM32_F4);
    [destruct (prt =? STM32_GPIO_PORT_A);
     [|destruct (prt =? STM32_GPIO_PORT_B)]|];
    destruct (pin_cases k Hk)
      as [->|[->|[->|[->|[->|[->|[->|[->|[->|[->|[->|[->|[->|[->|[->| ->]
         ]]]]]]]]]]]]]];
    reflexivity.
Qed.

(** X10: the default table makes no pin an output, so a device reset logs
    no short circuit for any pin, whatever drives the port; and every pin
    that nothing drives from outside reads its default pull-up afterwards:
    high on pins 13 and 15 of F4 port A and pin 4 of F4 port B, low
    everywhere else. *)
Theorem reset_levels (s : STM32GPIOState) :
  ngpio s <= 16 ->
  exists s' out,
    stm32_gpio_reset s = Ret tt s' out /\
    (forall j, ~ In (LogGuestError (ShortCircuited j)) out) /\
    (forall k, 0 <= k < ngpio s -> external_drive_present s k = false ->
       resolved_level s' k = Z.testbit (reset_idr (family s) (port s)) k).
Proof.
  intros Hn.
  exists (resolve (with_config (default_table (family s) (port s)) s)).
  eexists. split; [now apply reset_spec|]. split.
  - intros j. rewrite in_app_iff. intros [H|[H|[]]]; [|discriminate H].
    unfold resolve_output in H. apply in_output_after_hazard in H.
    cbn [ngpio with_config] in H. destruct H as (Hj & Hh).
    unfold hazard in Hh. rewrite default_no_output in Hh by lia.
    discriminate Hh.
  - intros k Hk Hp.
    rewrite resolve_level by (cbn [ngpio with_config]; lia).
    unfold arbitrate.
    change (external_drive_present
              (with_config (default_table (family s) (port s)) s) k)
      with (external_drive_present s k).
    rewrite Hp, default_no_output by lia. apply default_pull_up. lia.
Qed.

(** Port A of the F4 family with every pin driven high from outside but
    pin 13. *)
Lemma reset_levels_witness :
  exists s' out,
    stm32_gpio_reset
      (set_in_mask 0xDFFF
         (set_in 0xFFFF (stm32_gpio_init STM32_F4 STM32_GPIO_PORT_A 16)))
    = Ret tt s' out /\
    (forall j, ~ In (LogGuestError (ShortCircuited j)) out) /\
    (forall k, 0 <= k < 16 ->
       external_drive_present
         (set_in_mask 0xDFFF
            (set_in 0xFFFF (stm32_gpio_init STM32_F4 STM32_GPIO_PORT_A 16)))
         k = false ->
       resolved_level s' k = Z.testbit 0xA000 k).
Proof.
  apply (reset_levels
           (set_in_mask 0xDFFF
              (set_in 0xFFFF
                 (stm32_gpio_init STM32_F4 STM32_GPIO_PORT_A 16)))).
  simpl. lia.
Defined.

(** * Runs of operations *)

Lemma bind_inv {A B : Type} (m : M A) (f : A -> M B)
      (s s2 : STM32GPIOState) (b : B) (o : list event) :
  bind m f s = Ret b s2 o ->
  exists a s1 o1 o2,
    m s = Ret a s1 o1 /\ f a s1 = Ret b s2 o2 /\ o = o1 ++ o2.
Proof.
  unfold bind. destruct (m s) as [a s1 o1|]; [|discriminate].
  destruct (f a s1) as [b' s2' o2|] eqn:E; [|discriminate].
  intros [= <- <- <-]. now exists a, s1, o1, o2.
Qed.

Section Identity.

Variables s s' : STM32GPIOState.
Variable out : list event.
Hypothesis Hn : ngpio s <= 16.

Lemma resolve_identity (s1 : STM32GPIOState) (o : list event) :
  ngpio s1 = ngpio s -> family s1 = family s -> port s1 = port s ->
  Ret tt (resolve s1) o = Ret tt s' out ->
  ngpio s' = ngpio s /\ family s' = family s /\ port s' = port s.
Proof. intros H1 H2 H3 H. injection H as <- _. auto. Qed.

Lemma reset_identity :
  stm32_gpio_reset s = Ret tt s' out ->
  ngpio s' = ngpio s /\ family s' = family s /\ port s' = port s.
Proof.
  intros Hp. rewrite reset_spec in Hp by exact Hn.
  eapply resolve_identity; [| | |exact Hp]; reflexivity.
Qed.

Lemma irq_reset_identity (line value : Z) :
  stm32_gpio_irq_reset line value s = Ret tt s' out ->
  ngpio s' = ngpio s /\ family s' = family s /\ port s' = port s.
Proof.
  intros Hp.
  destruct (bool_dec (reset s) (negb (value =? 0))) as [E|E].
  - rewrite irq_reset_level in Hp by exact E.
    injection Hp as <- _. auto.
  - destruct (Z.eq_dec value 0) as [->|Hv].
    + rewrite irq_reset_falling in Hp
        by (try exact Hn; destruct (reset s); simpl in E; congruence).
      eapply resolve_identity; [| | |exact Hp]; reflexivity.
    + rewrite irq_reset_rising in Hp
        by (try assumption; replace (value =? 0) with false in E
              by (symmetry; zbool); destruct (reset s);
            simpl in E; congruence).
      eapply resolve_identity; [| | |exact Hp]; reflexivity.
Qed.

Lemma irq_enable_identity (line value : Z) :
  stm32_gpio_irq_enable line value s = Ret tt s' out ->
  ngpio s' = ngpio s /\ family s' = family s /\ port s' = port s.
Proof.
  intros Hp.
  destruct (bool_dec (enable s) (negb (value =? 0))) as [E|E].
  - rewrite irq_enable_level in Hp by exact E.
    injection Hp as <- _. auto.
  - rewrite irq_enable_edge in Hp by assumption.
    eapply resolve_identity; [| | |exact Hp]; reflexivity.
Qed.

Lemma irq_set_identity (line value : Z) :
  stm32_gpio_irq_set line value s = Ret tt s' out ->
  ngpio s' = ngpio s /\ family s' = family s /\ port s' = port s.
Proof.
  intros Hp.
  destruct (Z.le_gt_cases 0 line) as [H0|H0];
    [destruct (Z.lt_ge_cases line (ngpio s)) as [H1|H1]|].
  - rewrite irq_set_spec in Hp by (try assumption; lia).
    destruct (drive_frame line value s) as (Dn & _).
    destruct (drive_config line value s) as (_ & Df & Dp & _).
    eapply resolve_identity; [| | |exact Hp]; assumption.
  - rewrite irq_set_bad_line in Hp by lia. discriminate Hp.
  - rewrite irq_set_bad_line in Hp by lia. discriminate Hp.
Qed.

Lemma write_identity (offset value size : Z) :
  stm32_gpio_write offset value size s = Ret tt s' out ->
  ngpio s' = ngpio s /\ family s' = family s /\ port s' = port s.
Proof.
  intros Hp. destruct (enable s) eqn:He.
  - destruct (write_switch_frame offset value s)
      as (s1 & pre & Hw & Hf & _).
    destruct Hf as (_ & _ & _ & _ & _ & Hfam & Hport & H1).
    rewrite (write_enabled _ _ _ _ _ _ He Hn Hw H1) in Hp.
    eapply resolve_identity; [| | |exact Hp]; assumption.
  - rewrite write_disabled in Hp by exact He.
    injection Hp as <- _. auto.
Qed.

Lemma read_identity (offset size : Z) :
  (_ <- stm32_gpio_read offset size ;; ret tt) s = Ret tt s' out ->
  ngpio s' = ngpio s /\ family s' = family s /\ port s' = port s.
Proof.
  intros Hp. destruct (read_pure offset size s) as (r & o & Hr).
  rewrite (bind_Ret _ _ _ _ _ _ Hr) in Hp. unfold ret in Hp.
  injection Hp as <- _. auto.
Qed.

(** What an operation that returns can have done to the fields that
    identify the device. *)
Lemma perform_identity (op : operation) :
  perform op s = Ret tt s' out ->
  ngpio s' = ngpio s /\ family s' = family s /\ port s' = port s.
Proof.
  destruct op; cbn [perform].
  - apply reset_identity.
  - apply irq_reset_identity.
  - apply irq_enable_identity.
  - apply irq_set_identity.
  - apply write_identity.
  - apply read_identity.
Qed.

End Identity.

Lemma run_invariant (ops : list operation) :
  forall (s s' : STM32GPIOState) (out : list event),
    ngpio s <= 16 -> settled s -> run ops s = Ret tt s' out ->
    (ngpio s' = ngpio s /\ family s' = family s /\ port s' = port s) /\
    settled s'.
Proof.
  induction ops as [|op ops IH]; intros s s' out Hn Hs Hrun.
  - cbn [run] in Hrun. unfold ret in Hrun. injection Hrun as <- _. auto.
  - cbn [run] in Hrun. apply bind_inv in Hrun.
    destruct Hrun as ([] & s1 & o1 & o2 & Hp & Hrest & _).
    destruct (perform_identity s s1 o1 Hn op Hp) as (I1 & I2 & I3).
    destruct (perform_invariant s s1 o1 Hn Hs op Hp) as (Hn1 & Hs1).
    destruct (IH s1 s' o2 Hn1 Hs1 Hrest) as ((J1 & J2 & J3) & Hs').
    repeat split; congruence.
Qed.

(** X8: the pin count, the family and the port of a device never change:
    after any sequence of operations that returns, they are what the
    device was created with. *)
Theorem run_keeps_identity (fam prt n : Z) (ops : list operation)
        (s : STM32GPIOState) (out : list event) :
  0 <= n <= 16 ->
  run ops (stm32_gpio_init fam prt n) = Ret tt s out ->
  ngpio s = n /\ family s = fam /\ port s = prt.
Proof.
  intros Hn Hrun.
  assert (Hs0 : settled (stm32_gpio_init fam prt n)) by now apply init_settled.
  assert (Hn0 : ngpio (stm32_gpio_init fam prt n) <= 16) by (cbn; lia).
  destruct (run_invariant ops _ s out Hn0 Hs0 Hrun) as (H & _).
  exact H.
Qed.

Lemma run_keeps_identity_witness :
  ngpio latched_port = 16 /\ family latched_port = STM32_F2 /\
  port latched_port = STM32_GPIO_PORT_A.
Proof.
  apply (run_keeps_identity STM32_F2 STM32_GPIO_PORT_A 16
           [IrqEnable 1; Write STM32_GPIO_REG_MODER 1;
            Write STM32_GPIO_REG_ODR 1]
           latched_port [PulseStateIrq; PulseStateIrq; PulseStateIrq]);
    [lia|vm_compute; reflexivity].
Defined.

(** X7: [IDR] is always up to date: after any sequence of operations on a
    fresh device that returns, every pin of the port reads the external
    level if it is driven from outside, else its latch if it is an
    output, else its pull-up. *)
Theorem run_keeps_levels_resolved (fam prt n : Z) (ops : list operation)
        (s : STM32GPIOState) (out : list event) (k : Z) :
  0 <= n <= 16 ->
  run ops (stm32_gpio_init fam prt n) = Ret tt s out ->
  0 <= k < n ->
  resolved_level s k =
  if external_drive_present s k then external_drive_level s k
  else if is_output (pin_mode s k) then requested_output s k
       else is_pull_up (pin_pull s k).
Proof.
  intros Hn Hrun Hk.
  assert (Hs0 : settled (stm32_gpio_init fam prt n)) by now apply init_settled.
  assert (Hn0 : ngpio (stm32_gpio_init fam prt n) <= 16) by (cbn; lia).
  destruct (run_invariant ops _ s out Hn0 Hs0 Hrun) as ((Hng & _) & Hs).
  cbn [ngpio stm32_gpio_init] in Hng.
  now apply settled_level; [lia| |lia].
Qed.

Lemma run_keeps_levels_resolved_witness :
  resolved_level latched_port 0 =
  if external_drive_present latched_port 0
  then external_drive_level latched_port 0
  else if is_output (pin_mode latched_port 0)
       then requested_output latched_port 0
       else is_pull_up (pin_pull latched_port 0).
Proof.
  apply (run_keeps_levels_resolved STM32_F2 STM32_GPIO_PORT_A 16
           [IrqEnable 1; Write STM32_GPIO_REG_MODER 1;
            Write STM32_GPIO_REG_ODR 1]
           latched_port [PulseStateIrq; PulseStateIrq; PulseStateIrq] 0);
    [lia|vm_compute; reflexivity|lia].
Defined.

Lemma arbitrate_input_ignores_odr (v : Z) (s : STM32GPIOState) (k : Z) :
  pin_mode s k = Input -> arbitrate (set_odr v s) k = arbitrate s k.
Proof.
  intros Hm. unfold arbitrate.
  change (pin_mode (set_odr v s) k) with (pin_mode s k). rewrite Hm.
  reflexivity.
Qed.

(** X18: on a powered, settled port a write to [ODR] raises no per-pin
    notification: only outputs follow the latch, and only inputs are
    notified. *)
Theorem odr_write_never_notifies (s : STM32GPIOState) (v size : Z) :
  enable s = true -> ngpio s <= 16 -> settled s ->
  exists s' out,
    stm32_gpio_write STM32_GPIO_REG_ODR v size s = Ret tt s' out /\
    (forall k b, ~ In (SetInputIrq k b) out).
Proof.
  intros He Hn Hs.
  assert (Hw : write_switch STM32_GPIO_REG_ODR v s =
               Ret tt (set_odr (u32 v) s) []) by reflexivity.
  exists (resolve (set_odr (u32 v) s)),
    ([] ++ resolve_output (set_odr (u32 v) s) ++ [PulseStateIrq]).
  split; [exact (write_enabled _ _ _ _ _ _ He Hn Hw eq_refl)|].
  intros k b H. cbn [app] in H.
  apply in_resolve_output_irq in H; [|exact Hn].
  destruct H as (Hk & Hc & Hm & _).
  change (ngpio (set_odr (u32 v) s)) with (ngpio s) in Hk.
  change (pin_mode (set_odr (u32 v) s) k) with (pin_mode s k) in Hm.
  apply Hc. rewrite resolve_level by (cbn [ngpio set_odr]; lia).
  rewrite arbitrate_input_ignores_odr by exact Hm.
  change (resolved_level (set_odr (u32 v) s) k) with (resolved_level s k).
  symmetry. now apply settled_level.
Qed.

Lemma odr_write_never_notifies_witness :
  exists s' out,
    stm32_gpio_write STM32_GPIO_REG_ODR 0xFFFF 4 sample_port =
    Ret tt s' out /\
    (forall k b, ~ In (SetInputIrq k b) out).
Proof.
  apply (odr_write_never_notifies sample_port 0xFFFF 4);
    [reflexivity|simpl; lia|reflexivity].
Defined.
